(** * Toxy: the ProxyChains configuration rewrite and the installer pipeline

    A shallow embedding of [toxy.py].  Python text is modelled as
    [string], with characters as code points below 256 (the one other
    character of the script, in a printed message, is kept as its UTF-8
    bytes); the file system as a finite map from paths to file contents;
    external commands as an oracle on the environment and the file
    system; and [sys.exit] as an early-exit result. *)

From Stdlib Require Import Ascii String List ZArith Bool.
From Stdlib Require Import Numbers.DecimalString.
From stdpp Require Import gmap strings.
Import ListNotations.

#[local] Arguments String.append : simpl nomatch.

(** ** Python text primitives *)

Module Py.

(** The line feed character and the one-character string holding it. *)
Definition LF : ascii := "010"%char.
Definition CR : ascii := "013"%char.
Definition nl : string := String LF "".

(** [str.isspace] on one character, for code points below 256:
    TAB, LF, VT, FF, CR, FS, GS, RS, US, SPACE, NEL and NBSP. *)
Definition isspace (c : ascii) : bool :=
  match c with
  | "009" | "010" | "011" | "012" | "013"
  | "028" | "029" | "030" | "031" | " " | "133" | "160" => true
  | _ => false
  end%char.

(** [str.lstrip()], [str.rstrip()] and [str.strip()] without argument. *)
Fixpoint lstrip (s : string) : string :=
  match s with
  | "" => ""
  | String c s' => if isspace c then lstrip s' else s
  end.

Fixpoint rstrip (s : string) : string :=
  match s with
  | "" => ""
  | String c s' =>
      match rstrip s' with
      | "" => if isspace c then "" else String c ""
      | r => String c r
      end
  end.

Definition strip (s : string) : string := rstrip (lstrip s).

(** [s.startswith(p)]. *)
Definition startswith (s p : string) : bool := String.prefix p s.

(** [p in s]: substring containment. *)
Fixpoint contains (p s : string) : bool :=
  String.prefix p s ||
  match s with
  | "" => false
  | String _ s' => contains p s'
  end.

(** [''.join(ws)]: the text a file holds after the writes [ws]. *)
Fixpoint join (ws : list string) : string :=
  match ws with
  | [] => ""
  | w :: ws' => w +:+ join ws'
  end.

(** Universal-newline translation done by a text-mode [open(path, "r")]:
    CR LF and a lone CR are both read as LF. *)
Fixpoint universal_newlines (s : string) : string :=
  match s with
  | "" => ""
  | String c s' =>
      if Ascii.eqb c CR then
        match s' with
        | String c' s'' =>
            if Ascii.eqb c' LF then String LF (universal_newlines s'')
            else String LF (universal_newlines s')
        | "" => nl
        end
      else String c (universal_newlines s')
  end.

(** [f.readlines()] on already translated text: every line keeps its
    terminating LF; only the last one may lack it. *)
Fixpoint splitlines_keep (s : string) : list string :=
  match s with
  | "" => []
  | String c s' =>
      if Ascii.eqb c LF then nl :: splitlines_keep s'
      else match splitlines_keep s' with
           | [] => [String c ""]
           | l :: ls => String c l :: ls
           end
  end.

Definition readlines (content : string) : list string :=
  splitlines_keep (universal_newlines content).

End Py.

(** ** The line-by-line rewrite of [configure_proxychains] *)

Module Rewrite.
Import Py.

Definition MARKER : string := "[ProxyList]".

(** The directive the rewrite appends: ["socks5 127.0.0.1 9050\n"]. *)
Definition TOR_LINE : string := "socks5 127.0.0.1 9050" +:+ nl.

(** The header text written when no section was found: ["\n[ProxyList]\n"]. *)
Definition NEW_HEADER : string := nl +:+ "[ProxyList]" +:+ nl.

(** The test of the first branch of the loop. *)
Definition is_directive (line : string) : bool :=
  startswith (strip line) "socks" || startswith (strip line) "http".

(** One iteration of [for line in lines]: the state is the list of texts
    passed to [f.write] so far and the flag [found_proxy_list]. *)
Definition rewrite_step (st : list string * bool) (line : string)
  : list string * bool :=
  let '(written, found_proxy_list) := st in
  if is_directive line then
    (written ++ ["# " +:+ line], found_proxy_list)
  else if contains MARKER line then
    (written ++ [line], true)
  else
    (written ++ [line], found_proxy_list).

Definition rewrite_loop (lines : list string) : list string * bool :=
  fold_left rewrite_step lines ([], false).

(** All texts written between [open(config_file, "w")] and the end of the
    [with] block, in order. *)
Definition rewrite_writes (lines : list string) : list string :=
  let '(written, found_proxy_list) := rewrite_loop lines in
  if found_proxy_list then written ++ [TOR_LINE]
  else written ++ [NEW_HEADER; TOR_LINE].

(** The new content of the configuration file, from its old content. *)
Definition rewrite_config (content : string) : string :=
  join (rewrite_writes (readlines content)).

(** What a single line contributes, independently of the loop state. *)
Definition written_for (line : string) : string :=
  if is_directive line then "# " +:+ line else line.

Definition is_header (line : string) : bool :=
  negb (is_directive line) && contains MARKER line.

(** A line that is neither a directive nor a header. *)
Definition is_plain (line : string) : bool :=
  negb (is_directive line) && negb (contains MARKER line).

(** A comment line of the configuration format. *)
Definition is_comment (line : string) : bool := startswith (strip line) "#".

(** A text that is one full line: no LF except as its last character. *)
Fixpoint full_line (l : string) : bool :=
  match l with
  | "" => false
  | String c "" => Ascii.eqb c LF
  | String c l' => negb (Ascii.eqb c LF) && full_line l'
  end.

(** A text without any LF. *)
Fixpoint no_lf (l : string) : bool :=
  match l with
  | "" => true
  | String c l' => negb (Ascii.eqb c LF) && no_lf l'
  end.

(** The shape of what [readlines] returns: full lines, except that the
    last one may be a non-empty text without LF. *)
Fixpoint lines_ok (ls : list string) : bool :=
  match ls with
  | [] => true
  | [l] => full_line l || (no_lf l && negb (String.eqb l ""))
  | l :: ls' => full_line l && lines_ok ls'
  end.

(** A text without any CR. *)
Fixpoint no_cr (l : string) : bool :=
  match l with
  | "" => true
  | String c l' => negb (Ascii.eqb c CR) && no_cr l'
  end.

(** The lines a reader finds in the rewritten file. *)
Definition output_lines (content : string) : list string :=
  readlines (rewrite_config content).

End Rewrite.

(** ** The world the script runs in, and its effects *)

(** How a run of Python code ends: it returns a value, [sys.exit(code)]
    was called, or an exception nobody catches was raised. *)
Inductive Result (A : Type) : Type :=
  | Returned (a : A)
  | Exited (code : Z)
  | Uncaught (exn : string).
Arguments Returned {A} a.
Arguments Exited {A} code.
Arguments Uncaught {A} exn.

(** The exit status the operating system sees for the process. *)
Definition exit_status {A} (r : Result A) : Z :=
  match r with
  | Returned _ => 0
  | Exited code => code
  | Uncaught _ => 1
  end.

Section Script.

(** Everything outside the file system that commands act on (installed
    packages, services, the network) is kept abstract. *)
Context {Env : Type}.

(** The meaning of a shell command line: its return code and its effect. *)
Variable shell : string -> Env -> gmap string string -> Z * Env * gmap string string.

Record World : Type := mkWorld {
  env : Env;
  files : gmap string string;      (* path to content *)
  stdout : list string;            (* one entry per [print] call *)
  procs : list (string * Z);       (* [subprocess.run] calls, with return codes *)
  euid : Z                         (* effective user id of the process *)
}.

Definition M (A : Type) : Type := World -> Result A * World.

Definition ret {A} (a : A) : M A := fun w => (Returned a, w).

(** Sequencing: an exit or an uncaught exception skips the rest. *)
Definition bind {A B} (m : M A) (k : A -> M B) : M B := fun w =>
  match m w with
  | (Returned a, w') => k a w'
  | (Exited code, w') => (Exited code, w')
  | (Uncaught exn, w') => (Uncaught exn, w')
  end.

#[local] Notation "x <- m ;; k" := (bind m (fun x => k))
  (at level 100, m at next level, right associativity).
#[local] Notation "m ;; k" := (bind m (fun _ => k))
  (at level 100, right associativity).

(** *** Library calls *)

Definition print (msg : string) : M unit := fun w =>
  (Returned tt,
   mkWorld (env w) (files w) (stdout w ++ [msg]) (procs w) (euid w)).

Definition sys_exit {A} (code : Z) : M A := fun w => (Exited code, w).

Definition os_geteuid : M Z := fun w => (Returned (euid w), w).

Definition os_path_exists (path : string) : M bool := fun w =>
  (Returned (bool_decide (is_Some (files w !! path))), w).

Definition set_files (fs : gmap string string) (w : World) : World :=
  mkWorld (env w) fs (stdout w) (procs w) (euid w).

(** [os.remove(path)].  Every path of the map is a regular file that the
    process may delete; the errors of the real call on a directory or
    without permission have no counterpart here. *)
Definition os_remove (path : string) : M unit := fun w =>
  match files w !! path with
  | Some _ => (Returned tt, set_files (delete path (files w)) w)
  | None => (Uncaught "FileNotFoundError", w)
  end.

Definition shutil_copyfile (src dst : string) : M unit := fun w =>
  match files w !! src with
  | Some content => (Returned tt, set_files (<[dst := content]> (files w)) w)
  | None => (Uncaught "FileNotFoundError", w)
  end.

(** [with open(path, "r") as f: lines = f.readlines()].  A file holds
    text: bytes that do not decode are outside the model. *)
Definition read_lines (path : string) : M (list string) := fun w =>
  match files w !! path with
  | Some content => (Returned (Py.readlines content), w)
  | None => (Uncaught "FileNotFoundError", w)
  end.

(** [open(path, "w")] truncates the file; the texts written to the file
    object make up its content when the [with] block is left. *)
Definition open_w (path : string) : M unit := fun w =>
  (Returned tt, set_files (<[path := ""]> (files w)) w).

Definition close_w (path : string) (written : list string) : M unit := fun w =>
  (Returned tt, set_files (<[path := Py.join written]> (files w)) w).

(** [subprocess.run(command, shell=True, check=False).returncode]. *)
Definition subprocess_run (command : string) : M Z := fun w =>
  let '(rc, e, fs) := shell command (env w) (files w) in
  (Returned rc, mkWorld e fs (stdout w) (procs w ++ [(command, rc)]) (euid w)).

(** [input()]: blocks until the operator answers.  The script throws the
    answer away, so only the fact that the call returns is modelled; the
    [EOFError] of a closed standard input is not. *)
Definition input : M string := fun w => (Returned "", w).

(** [time.sleep(seconds)] only lets time pass. *)
Definition time_sleep (seconds : Z) : M unit := fun w => (Returned tt, w).

(** [str(n)] for an integer. *)
Definition str_int (n : Z) : string := NilZero.string_of_int (Z.to_int n).

(** *** The script *)

Definition run_cmd (command : string) (check : bool) : M Z :=
  print (Py.nl +:+ "-> Running: " +:+ command) ;;
  returncode <- subprocess_run command ;;
  if check && negb (returncode =? 0)%Z then
    print ("[ERROR] Command failed with exit code " +:+ str_int returncode
           +:+ ": " +:+ command) ;;
    sys_exit 1
  else ret returncode.

(** Step 1. *)
Definition cleanup_existing_install : M unit :=
  print (Py.nl +:+ "[Step 1] Cleaning up old Tor and Tor Browser installations...") ;;
  run_cmd "apt purge -y tor torbrowser-launcher" false ;;
  let tor_list_file := "/etc/apt/sources.list.d/torproject.list" in
  present <- os_path_exists tor_list_file ;;
  (if present then
     print ("Removing old repository file: " +:+ tor_list_file) ;;
     os_remove tor_list_file
   else ret tt) ;;
  let gpg_key_file := "/usr/share/keyrings/tor-archive-keyring.gpg" in
  present <- os_path_exists gpg_key_file ;;
  (if present then
     print ("Removing old GPG key: " +:+ gpg_key_file) ;;
     os_remove gpg_key_file
   else ret tt) ;;
  run_cmd "apt autoremove -y" true ;;
  run_cmd "apt update" true ;;
  print "Cleanup complete.".

(** Step 2. *)
Definition install_tor_and_proxychains : M unit :=
  print (Py.nl +:+ "[Step 2] Installing Tor and ProxyChains...") ;;
  print "-> Downloading and adding Tor GPG key..." ;;
  let key_cmd :=
    "wget -qO- https://deb.torproject.org/torproject.org/A3C4F0F979CAA22CDBA8F512EE8CBC9E886DDD89.asc | "
    +:+ "gpg --dearmor | tee /usr/share/keyrings/tor-archive-keyring.gpg >/dev/null" in
  run_cmd key_cmd true ;;
  run_cmd "chmod 644 /usr/share/keyrings/tor-archive-keyring.gpg" true ;;
  print "-> Adding Tor repository for Debian 12 (bookworm)..." ;;
  let repo_line :=
    "deb [signed-by=/usr/share/keyrings/tor-archive-keyring.gpg] https://deb.torproject.org/torproject.org bookworm main" in
  open_w "/etc/apt/sources.list.d/torproject.list" ;;
  close_w "/etc/apt/sources.list.d/torproject.list" [repo_line +:+ Py.nl] ;;
  print "-> Updating package list and installing Tor and ProxyChains..." ;;
  run_cmd "apt update" true ;;
  run_cmd "apt install -y tor proxychains4" true ;;
  print "Tor and ProxyChains installation complete.".

(** Step 3. *)
Definition config_file : string := "/etc/proxychains4.conf".
Definition backup_file : string := config_file +:+ ".bak".

Definition configure_proxychains : M unit :=
  print (Py.nl +:+ "[Step 3] Configuring ProxyChains...") ;;
  present <- os_path_exists config_file ;;
  if negb present then
    print ("[ERROR] ProxyChains configuration file not found at " +:+ config_file) ;;
    sys_exit 1
  else
    print ("-> Backing up original config to " +:+ backup_file) ;;
    shutil_copyfile config_file backup_file ;;
    lines <- read_lines config_file ;;
    open_w config_file ;;
    (let '(written, found_proxy_list) := Rewrite.rewrite_loop lines in
     if found_proxy_list then
       print "-> Adding Tor SOCKS5 proxy to the configuration." ;;
       close_w config_file (written ++ [Rewrite.TOR_LINE])
     else
       print "[WARNING] Could not find '[ProxyList]' section in config file. Adding to the end." ;;
       close_w config_file (written ++ [Rewrite.NEW_HEADER; Rewrite.TOR_LINE])) ;;
    print "ProxyChains configuration complete.".

(** The usage notes printed at the end of step 4. *)
Definition USAGE : string := "
### How to Manage Tor Services
You can control the Tor service using 'systemctl'. These commands require administrative privileges.

- **Start Tor:**
  sudo systemctl start tor
- **Stop Tor:**
  sudo systemctl stop tor
- **Restart Tor (to get a new IP):**
  sudo systemctl restart tor
- **Check Tor's status:**
  sudo systemctl status tor

### How to Run Applications with ProxyChains
To run an application through the Tor network, simply use `proxychains` before the command.

- **Example: Run Firefox through Tor**
  proxychains firefox-esr
- **Example: Check your IP address**
  proxychains curl ipinfo.io
    ".

(** Step 4. *)
Definition start_tor_and_provide_instructions : M unit :=
  print (Py.nl +:+ "[Step 4] Starting Tor service and finalizing setup...") ;;
  run_cmd "systemctl enable --now tor" true ;;
  print "-> Waiting 10 seconds for Tor to connect to the network..." ;;
  time_sleep 10 ;;
  print (Py.nl +:+ "✅ All done! Tor and ProxyChains are installed and ready to use.") ;;
  print USAGE.

(** The entry point. *)
Definition main : M unit :=
  print "=== Toxy by incrediBit ===" ;;
  print (Py.nl +:+ "This script will perform the following steps:") ;;
  print "1. Clean up any existing Tor installations to ensure a fresh start." ;;
  print "2. Install the latest Tor and ProxyChains packages." ;;
  print "3. Configure ProxyChains to route traffic through the Tor network." ;;
  print "4. Start and enable the Tor service, and provide usage instructions." ;;
  print (Py.nl +:+ "Press Enter to begin the process...") ;;
  input ;;
  uid <- os_geteuid ;;
  (if negb (uid =? 0)%Z then
     print "[ERROR] This script must be run as root. Please use 'sudo'." ;;
     sys_exit 1
   else ret tt) ;;
  cleanup_existing_install ;;
  install_tor_and_proxychains ;;
  configure_proxychains ;;
  start_tor_and_provide_instructions ;;
  print (Py.nl +:+ "Script finished.") ;;
  print "Thanks for using Toxy!" ;;
  print "@incrediBit".

End Script.

Arguments World Env : clear implicits.
Arguments M Env A : clear implicits.

(** ** Specification vocabulary for runs of the script *)

(** The one command the script runs without the must-succeed flag. *)
Definition PURGE_CMD : string := "apt purge -y tor torbrowser-launcher".

(** A recorded command that cannot have stopped the script: it returned
    0, or it is the command run with [check=False]. *)
Definition harmless (p : string * Z) : Prop := p.2 = 0%Z \/ p.1 = PURGE_CMD.

(** A computation that raises nothing, exits with status 1 if it exits at
    all, and returns only when every command it ran was harmless. *)
Definition disciplined {Env A} (m : M Env A) : Prop :=
  forall w, exists new,
    procs (m w).2 = procs w ++ new /\
    (((exists a, (m w).1 = Returned a) /\ Forall harmless new) \/
     (m w).1 = Exited 1).

(** The world after some more messages were printed. *)
Definition printed {Env} (msgs : list string) (w : World Env) : World Env :=
  mkWorld (env w) (files w) (stdout w ++ msgs) (procs w) (euid w).

(** A root user's machine holding only the configuration file. *)
Definition one_file_world (content : string) : World unit :=
  mkWorld tt {[ config_file := content ]} [] [] 0.

(** A machine where every command succeeds and the package ships no
    configuration file. *)
Definition no_config_shell (command : string) (e : unit)
    (fs : gmap string string) : Z * unit * gmap string string :=
  (0%Z, e, delete config_file fs).

(** A machine where every command succeeds and the installation brings a
    stock configuration file. *)
Definition stock_shell (command : string) (e : unit)
    (fs : gmap string string) : Z * unit * gmap string string :=
  if String.eqb command "apt install -y tor proxychains4" then
    (0%Z, e, <[config_file := "[ProxyList]" +:+ Py.nl +:+ "socks4 127.0.0.1 9050" +:+ Py.nl]> fs)
  else (0%Z, e, fs).

(** ** Further vocabulary: texts *)

(** A text made of whitespace only. *)
Fixpoint all_space (s : string) : bool :=
  match s with
  | "" => true
  | String c s' => Py.isspace c && all_space s'
  end.

(** ** Further vocabulary: runs *)

(** The two files that step 1 deletes. *)
Definition tor_list_file : string := "/etc/apt/sources.list.d/torproject.list".
Definition gpg_key_file : string := "/usr/share/keyrings/tor-archive-keyring.gpg".

(** The line that step 2 puts into the repository list. *)
Definition repo_line : string :=
  "deb [signed-by=/usr/share/keyrings/tor-archive-keyring.gpg] https://deb.torproject.org/torproject.org bookworm main".

(** The command lines of the script, in the order of a full run. *)
Definition KEY_CMD : string :=
  "wget -qO- https://deb.torproject.org/torproject.org/A3C4F0F979CAA22CDBA8F512EE8CBC9E886DDD89.asc | "
  +:+ "gpg --dearmor | tee /usr/share/keyrings/tor-archive-keyring.gpg >/dev/null".
Definition INSTALL_CMD : string := "apt install -y tor proxychains4".
Definition START_CMD : string := "systemctl enable --now tor".

Definition COMMANDS : list string :=
  [ PURGE_CMD; "apt autoremove -y"; "apt update";
    KEY_CMD; "chmod 644 /usr/share/keyrings/tor-archive-keyring.gpg";
    "apt update"; INSTALL_CMD; START_CMD ].

(** A computation that runs the commands [cs] in order when it returns,
    and a first part of them when it exits; it exits with status 1 only,
    raises nothing, and no command follows one that was not harmless. *)
Definition runs {Env A} (m : M Env A) (cs : list string) : Prop :=
  forall w, exists new,
    procs (m w).2 = procs w ++ new /\
    (((exists a, (m w).1 = Returned a) /\
      map fst new = cs /\ Forall harmless new) \/
     ((m w).1 = Exited 1 /\
      map fst new `prefix_of` cs /\ Forall harmless (removelast new))).

(** A machine where the package index cannot be refreshed. *)
Definition offline_shell (command : string) (e : unit)
    (fs : gmap string string) : Z * unit * gmap string string :=
  if String.eqb command "apt update" then (100%Z, e, fs) else (0%Z, e, fs).

(** ** Further vocabulary: what a computation does to the files *)

(** Started with files satisfying [P], the computation raises nothing;
    when it returns [a] the files satisfy [Q a], and when it exits they
    satisfy [E]. *)
Definition triple {Env A} (P : gmap string string -> Prop) (m : M Env A)
    (Q : A -> gmap string string -> Prop) (E : gmap string string -> Prop)
  : Prop :=
  forall w, P (files w) ->
    match (m w).1 with
    | Returned a => Q a (files (m w).2)
    | Exited _ => E (files (m w).2)
    | Uncaught _ => False
    end.

(** Both files of an earlier installation are absent. *)
Definition old_files_gone (fs : gmap string string) : Prop :=
  fs !! tor_list_file = None /\ fs !! gpg_key_file = None.

(** The configuration file is the rewrite of what the backup holds. *)
Definition rewritten (fs : gmap string string) : Prop :=
  exists c, fs !! backup_file = Some c /\
            fs !! config_file = Some (Rewrite.rewrite_config c).

(** A machine like [stock_shell], except that there is nothing to purge
    and the purge command reports an error. *)
Definition nothing_to_purge_shell (command : string) (e : unit)
    (fs : gmap string string) : Z * unit * gmap string string :=
  if String.eqb command PURGE_CMD then (100%Z, e, fs)
  else stock_shell command e fs.

(** The two trivial conditions on the files. *)
Definition anything : gmap string string -> Prop := fun _ => True.
Definition never : gmap string string -> Prop := fun _ => False.

(** * Facts about the text primitives *)

Import Py Rewrite.

Lemma append_cons c s t : String c s +:+ t = String c (s +:+ t).
Proof. reflexivity. Qed.

Lemma append_empty_r s : s +:+ "" = s.
Proof. induction s as [|c s IH]; [reflexivity|]. rewrite append_cons, IH. reflexivity. Qed.

Lemma append_assoc s t u : (s +:+ t) +:+ u = s +:+ (t +:+ u).
Proof.
  induction s as [|c s IH]; [reflexivity|].
  rewrite !append_cons, IH. reflexivity.
Qed.

Lemma join_app ws1 ws2 : join (ws1 ++ ws2) = join ws1 +:+ join ws2.
Proof.
  induction ws1 as [|w ws1 IH]; [reflexivity|].
  cbn [app join]. rewrite IH, append_assoc. reflexivity.
Qed.

Lemma join_singleton w : join [w] = w.
Proof. apply append_empty_r. Qed.

(** Reading lines back and gluing them gives the text again. *)
Lemma join_splitlines_keep s : join (splitlines_keep s) = s.
Proof.
  induction s as [|c s IH]; [reflexivity|].
  cbn [splitlines_keep]. destruct (Ascii.eqb c LF) eqn:E.
  - apply Ascii.eqb_eq in E. subst c. cbn [join]. rewrite IH. reflexivity.
  - destruct (splitlines_keep s) as [|l ls].
    + cbn in IH. subst s. reflexivity.
    + cbn [join] in *. rewrite append_cons, IH. reflexivity.
Qed.

Lemma full_line_not_empty l : full_line l = true -> l <> "".
Proof. destruct l; [discriminate|congruence]. Qed.

(** A full line at the front of a text is the first line read. *)
Lemma splitlines_keep_full l rest :
  full_line l = true -> splitlines_keep (l +:+ rest) = l :: splitlines_keep rest.
Proof.
  induction l as [|c l IH]; [discriminate|].
  intros H. rewrite append_cons. cbn [splitlines_keep].
  destruct l as [|c' l'].
  - cbn in H. rewrite H. apply Ascii.eqb_eq in H. subst c. reflexivity.
  - cbn [full_line] in H. apply andb_true_iff in H as [Hc Hl].
    apply negb_true_iff in Hc. rewrite Hc, (IH Hl). reflexivity.
Qed.

Lemma splitlines_keep_join ls rest :
  Forall (fun l => full_line l = true) ls ->
  splitlines_keep (join ls +:+ rest) = ls ++ splitlines_keep rest.
Proof.
  induction 1 as [|l ls Hl _ IH]; [reflexivity|].
  cbn [join app]. rewrite append_assoc, (splitlines_keep_full _ _ Hl), IH.
  reflexivity.
Qed.

Lemma full_line_append a b :
  no_lf a = true -> full_line b = true -> full_line (a +:+ b) = true.
Proof.
  induction a as [|c a IH]; [trivial|].
  cbn [no_lf]. intros [Hc Ha]%andb_true_iff Hb. rewrite append_cons.
  specialize (IH Ha Hb). cbn [full_line].
  destruct (a +:+ b) eqn:E; [discriminate|]. rewrite Hc, IH. reflexivity.
Qed.

Lemma no_lf_append a b : no_lf (a +:+ b) = no_lf a && no_lf b.
Proof.
  induction a as [|c a IH]; [reflexivity|].
  rewrite append_cons. cbn [no_lf]. rewrite IH, andb_assoc. reflexivity.
Qed.

Lemma full_line_cons c l :
  Ascii.eqb c LF = false -> full_line l = true -> full_line (String c l) = true.
Proof.
  intros Hc Hl. cbn [full_line]. destruct l; [discriminate|].
  rewrite Hc, Hl. reflexivity.
Qed.

Lemma splitlines_keep_ok s : lines_ok (splitlines_keep s) = true.
Proof.
  induction s as [|c s IH]; [reflexivity|].
  cbn [splitlines_keep]. destruct (Ascii.eqb c LF) eqn:E.
  - apply Ascii.eqb_eq in E. subst c.
    destruct (splitlines_keep s); [reflexivity|exact IH].
  - destruct (splitlines_keep s) as [|l ls]; [cbn; rewrite E; reflexivity|].
    destruct ls as [|l2 ls].
    + cbn [lines_ok] in *. apply orb_true_iff in IH as [Hl|Hl].
      * rewrite (full_line_cons _ _ E Hl). reflexivity.
      * apply andb_true_iff in Hl as [Hl _]. apply orb_true_iff. right.
        cbn [no_lf]. rewrite E, Hl. reflexivity.
    + cbn [lines_ok] in *. apply andb_true_iff in IH as [Hl Hr].
      rewrite (full_line_cons _ _ E Hl). exact Hr.
Qed.

Lemma lines_ok_snoc init last :
  lines_ok (init ++ [last]) = true ->
  Forall (fun l => full_line l = true) init /\
  (full_line last = true \/ (no_lf last = true /\ last <> "")).
Proof.
  induction init as [|l init IH]; intros H.
  - split; [constructor|]. cbn [app lines_ok] in H.
    apply orb_true_iff in H as [H|[H1 H2]%andb_true_iff]; [left|right]; trivial.
    split; [trivial|]. apply negb_true_iff, String.eqb_neq in H2. exact H2.
  - cbn [app] in H. destruct (init ++ [last]) eqn:E.
    + destruct init; discriminate.
    + cbn [lines_ok] in H. apply andb_true_iff in H as [Hl Hr].
      destruct (IH Hr) as [Hi Hlast]. split; [constructor|]; trivial.
Qed.

(** ** Carriage returns never survive reading *)

Lemma no_cr_append a b : no_cr (a +:+ b) = no_cr a && no_cr b.
Proof.
  induction a as [|c a IH]; [reflexivity|].
  rewrite append_cons. cbn [no_cr]. rewrite IH, andb_assoc. reflexivity.
Qed.

Lemma no_cr_join ws :
  Forall (fun w => no_cr w = true) ws -> no_cr (join ws) = true.
Proof.
  induction 1 as [|w ws Hw _ IH]; [reflexivity|].
  cbn [join]. rewrite no_cr_append, Hw, IH. reflexivity.
Qed.

Lemma universal_newlines_no_cr_aux s :
  no_cr (universal_newlines s) = true /\
  forall c, no_cr (universal_newlines (String c s)) = true.
Proof.
  induction s as [|c s [IH1 IH2]].
  - split; [reflexivity|]. intros c. cbn [universal_newlines].
    destruct (Ascii.eqb c CR) eqn:E; [reflexivity|].
    cbn [no_cr]. rewrite E. reflexivity.
  - split; [apply IH2|]. intros c'.
    change (universal_newlines (String c' (String c s))) with
      (if Ascii.eqb c' CR
       then if Ascii.eqb c LF then String LF (universal_newlines s)
            else String LF (universal_newlines (String c s))
       else String c' (universal_newlines (String c s))).
    destruct (Ascii.eqb c' CR) eqn:E.
    + destruct (Ascii.eqb c LF); cbn [no_cr]; [rewrite IH1|rewrite IH2]; reflexivity.
    + cbn [no_cr]. rewrite E, IH2. reflexivity.
Qed.

Lemma universal_newlines_no_cr s : no_cr (universal_newlines s) = true.
Proof. apply universal_newlines_no_cr_aux. Qed.

Lemma universal_newlines_id s : no_cr s = true -> universal_newlines s = s.
Proof.
  induction s as [|c s IH]; [reflexivity|].
  cbn [no_cr]. intros [Hc Hs]%andb_true_iff. apply negb_true_iff in Hc.
  cbn [universal_newlines]. rewrite Hc, (IH Hs). reflexivity.
Qed.

Lemma splitlines_keep_no_cr s :
  no_cr s = true -> Forall (fun l => no_cr l = true) (splitlines_keep s).
Proof.
  induction s as [|c s IH]; [constructor|].
  cbn [no_cr]. intros [Hc Hs]%andb_true_iff. specialize (IH Hs).
  cbn [splitlines_keep]. destruct (Ascii.eqb c LF).
  - constructor; [reflexivity|exact IH].
  - destruct (splitlines_keep s) as [|l ls].
    + constructor; [|constructor]. cbn [no_cr]. rewrite Hc. reflexivity.
    + inversion IH; subst. constructor; [|assumption].
      cbn [no_cr]. rewrite Hc. assumption.
Qed.

Lemma readlines_no_cr content :
  Forall (fun l => no_cr l = true) (readlines content).
Proof. apply splitlines_keep_no_cr, universal_newlines_no_cr. Qed.

Lemma readlines_ok content : lines_ok (readlines content) = true.
Proof. apply splitlines_keep_ok. Qed.

(** ** The tests on lines *)

Lemma is_directive_commented line : is_directive ("# " +:+ line) = false.
Proof.
  unfold is_directive, strip, startswith.
  change (lstrip ("# " +:+ line)) with (String "#" (" " +:+ line)).
  cbn [rstrip]. destruct (rstrip (" " +:+ line)); reflexivity.
Qed.

Lemma is_comment_commented line : is_comment ("# " +:+ line) = true.
Proof.
  unfold is_comment, strip, startswith.
  change (lstrip ("# " +:+ line)) with (String "#" (" " +:+ line)).
  cbn [rstrip]. destruct (rstrip (" " +:+ line)); reflexivity.
Qed.

Lemma written_for_not_directive line : is_directive (written_for line) = false.
Proof.
  unfold written_for. destruct (is_directive line) eqn:E; [|exact E].
  apply is_directive_commented.
Qed.

Lemma written_for_full line :
  full_line line = true -> full_line (written_for line) = true.
Proof.
  intros H. unfold written_for. destruct (is_directive line); [|exact H].
  apply full_line_append; [reflexivity|exact H].
Qed.

Lemma written_for_no_lf line : no_lf (written_for line) = no_lf line.
Proof.
  unfold written_for. destruct (is_directive line); [|reflexivity].
  rewrite no_lf_append. reflexivity.
Qed.

Lemma written_for_no_cr line : no_cr (written_for line) = no_cr line.
Proof.
  unfold written_for. destruct (is_directive line); [|reflexivity].
  rewrite no_cr_append. reflexivity.
Qed.

(** ** The loop, in closed form *)

Lemma rewrite_loop_from lines written found :
  fold_left rewrite_step lines (written, found) =
  (written ++ map written_for lines, found || existsb is_header lines).
Proof.
  revert written found.
  induction lines as [|line lines IH]; intros written found.
  - cbn. rewrite app_nil_r, orb_false_r. reflexivity.
  - cbn [fold_left map existsb]. unfold rewrite_step at 2, is_header at 1, written_for at 1.
    destruct (is_directive line); cbn [negb andb orb].
    + rewrite IH, <- app_assoc. reflexivity.
    + destruct (contains MARKER line); rewrite IH, <- app_assoc; cbn [app orb];
        rewrite ?orb_true_r; reflexivity.
Qed.

Lemma rewrite_loop_closed lines :
  rewrite_loop lines = (map written_for lines, existsb is_header lines).
Proof. unfold rewrite_loop. rewrite rewrite_loop_from. reflexivity. Qed.

Lemma rewrite_writes_closed lines :
  rewrite_writes lines =
  map written_for lines ++
  (if existsb is_header lines then [TOR_LINE] else [NEW_HEADER; TOR_LINE]).
Proof.
  unfold rewrite_writes. rewrite rewrite_loop_closed.
  destruct (existsb is_header lines); reflexivity.
Qed.

(** ** Reading the rewritten file back *)

Lemma readlines_join ls :
  Forall (fun l => full_line l = true) ls ->
  Forall (fun l => no_cr l = true) ls ->
  readlines (join ls) = ls.
Proof.
  intros Hfull Hcr. unfold readlines.
  rewrite (universal_newlines_id _ (no_cr_join _ Hcr)).
  rewrite <- (append_empty_r (join ls)), (splitlines_keep_join _ _ Hfull).
  apply app_nil_r.
Qed.

Lemma Forall_written_for_full ls :
  Forall (fun l => full_line l = true) ls ->
  Forall (fun l => full_line l = true) (map written_for ls).
Proof.
  induction 1; constructor; [apply written_for_full|]; assumption.
Qed.

Lemma Forall_written_for_no_cr ls :
  Forall (fun l => no_cr l = true) ls ->
  Forall (fun l => no_cr l = true) (map written_for ls).
Proof.
  induction 1; constructor; [rewrite written_for_no_cr|]; assumption.
Qed.

(** The lines of the output when every input line ends with LF: one per
    input line, then the appended ones. *)
Lemma output_lines_terminated content :
  Forall (fun l => full_line l = true) (readlines content) ->
  output_lines content =
  map written_for (readlines content) ++
  (if existsb is_header (readlines content) then [TOR_LINE]
   else [nl; MARKER +:+ nl; TOR_LINE]).
Proof.
  intros Hfull. unfold output_lines, rewrite_config.
  rewrite rewrite_writes_closed.
  pose proof (readlines_no_cr content) as Hcr.
  set (lines := readlines content) in *.
  set (tl := if existsb is_header lines then [TOR_LINE]
             else [nl; MARKER +:+ nl; TOR_LINE]).
  replace (join (map written_for lines ++
                 (if existsb is_header lines then [TOR_LINE]
                  else [NEW_HEADER; TOR_LINE])))
    with (join (map written_for lines ++ tl)).
  - apply readlines_join.
    + apply Forall_app; split; [apply Forall_written_for_full, Hfull|].
      subst tl. destruct (existsb is_header lines); repeat constructor.
    + apply Forall_app; split; [apply Forall_written_for_no_cr, Hcr|].
      subst tl. destruct (existsb is_header lines); repeat constructor.
  - rewrite !join_app. f_equal. subst tl.
    destruct (existsb is_header lines); reflexivity.
Qed.

(** The lines of the output when the last input line lacks its LF. *)
Lemma output_lines_unterminated content init last :
  readlines content = init ++ [last] ->
  full_line last = false ->
  output_lines content =
  map written_for init ++
  (if existsb is_header (readlines content)
   then [written_for last +:+ TOR_LINE]
   else [written_for last +:+ nl; MARKER +:+ nl; TOR_LINE]).
Proof.
  intros Hlines Hlast.
  pose proof (readlines_ok content) as Hok.
  pose proof (readlines_no_cr content) as Hcr.
  unfold output_lines, rewrite_config. rewrite rewrite_writes_closed.
  rewrite Hlines in *.
  apply lines_ok_snoc in Hok as [Hinit [Hl|[Hl _]]]; [congruence|].
  apply Forall_app in Hcr as [Hcri Hcrl]. inversion Hcrl as [|? ? Hcrlast _]; subst.
  set (tl := if existsb is_header (init ++ [last])
             then [written_for last +:+ TOR_LINE]
             else [written_for last +:+ nl; MARKER +:+ nl; TOR_LINE]).
  replace (join (map written_for (init ++ [last]) ++
                 (if existsb is_header (init ++ [last]) then [TOR_LINE]
                  else [NEW_HEADER; TOR_LINE])))
    with (join (map written_for init ++ tl)).
  - apply readlines_join.
    + apply Forall_app; split; [apply Forall_written_for_full, Hinit|].
      subst tl. destruct (existsb is_header (init ++ [last]));
        repeat constructor;
        apply full_line_append; rewrite ?written_for_no_lf; trivial.
    + apply Forall_app; split; [apply Forall_written_for_no_cr, Hcri|].
      subst tl. destruct (existsb is_header (init ++ [last]));
        repeat constructor;
        rewrite no_cr_append, written_for_no_cr, Hcrlast; reflexivity.
  - rewrite map_app, !join_app. cbn [map]. rewrite append_assoc. f_equal.
    subst tl. destruct (existsb is_header (init ++ [last])); cbn [join];
      rewrite ?append_empty_r, ?append_assoc; reflexivity.
Qed.

Lemma header_line_found lines line :
  In line lines -> contains MARKER line = true -> is_directive line = false ->
  existsb is_header lines = true.
Proof.
  intros Hin Hmark Hdir. apply existsb_exists. exists line.
  split; [exact Hin|]. unfold is_header. rewrite Hdir, Hmark. reflexivity.
Qed.

Lemma written_for_plain_or_header line :
  is_directive line = false -> written_for line = line.
Proof. intros H. unfold written_for. rewrite H. reflexivity. Qed.

Lemma tor_line_not_written lines : ~ In TOR_LINE (map written_for lines).
Proof.
  intros (l & Hl & _)%in_map_iff.
  pose proof (written_for_not_directive l) as H. rewrite Hl in H.
  discriminate H.
Qed.

Lemma lines_ok_In ls l :
  lines_ok ls = true -> In l ls -> full_line l = true \/ no_lf l = true.
Proof.
  induction ls as [|x ls IH]; [intros _ []|].
  intros Hok [->|Hin].
  - destruct ls; cbn [lines_ok] in Hok.
    + apply orb_true_iff in Hok as [H|[H _]%andb_true_iff]; auto.
    + apply andb_true_iff in Hok as [H _]. auto.
  - destruct ls as [|y ls]; [destruct Hin|].
    cbn [lines_ok] in Hok. apply andb_true_iff in Hok as [_ Hok]. auto.
Qed.

(** The header text spans two lines, so it is never a line read. *)
Lemma lines_ok_no_header ls : In NEW_HEADER ls -> lines_ok ls = true -> False.
Proof.
  intros Hin Hok. destruct (lines_ok_In _ _ Hok Hin) as [H|H]; discriminate H.
Qed.

(** ** Lines that end with LF, and lines that do not *)

Lemma rstrip_all_space ws : all_space ws = true -> rstrip ws = "".
Proof.
  induction ws as [|c ws IH]; [reflexivity|].
  cbn [all_space]. intros [Hc Hws]%andb_true_iff.
  cbn [rstrip]. rewrite (IH Hws), Hc. reflexivity.
Qed.

Lemma rstrip_append_space s ws :
  all_space ws = true -> rstrip (s +:+ ws) = rstrip s.
Proof.
  intros H. induction s as [|c s IH]; [apply rstrip_all_space, H|].
  rewrite append_cons. cbn [rstrip]. rewrite IH. reflexivity.
Qed.

Lemma strip_append_space s ws :
  all_space ws = true -> strip (s +:+ ws) = strip s.
Proof.
  intros H. unfold strip. induction s as [|c s IH].
  - change ("" +:+ ws) with ws.
    assert (E : lstrip ws = "").
    { clear -H. induction ws as [|c ws IH]; [reflexivity|].
      cbn [all_space] in H. apply andb_true_iff in H as [Hc Hws].
      cbn [lstrip]. rewrite Hc. apply IH, Hws. }
    rewrite E. reflexivity.
  - rewrite append_cons. cbn [lstrip]. destruct (isspace c); [exact IH|].
    rewrite <- append_cons. apply rstrip_append_space, H.
Qed.

Lemma is_directive_append_nl s : is_directive (s +:+ nl) = is_directive s.
Proof.
  unfold is_directive. rewrite (strip_append_space s nl) by reflexivity.
  reflexivity.
Qed.

(** The lines read either all end with LF, or all but the last do. *)
Lemma readlines_shape content :
  Forall (fun l => full_line l = true) (readlines content) \/
  exists init last,
    readlines content = init ++ [last] /\
    Forall (fun l => full_line l = true) init /\ full_line last = false.
Proof.
  pose proof (readlines_ok content) as Hok.
  destruct (readlines content) as [|l ls] using rev_ind; [left; constructor|].
  clear IHls. apply lines_ok_snoc in Hok as [Hinit _].
  destruct (full_line l) eqn:E.
  - left. apply Forall_app. split; [exact Hinit|]. constructor; [exact E|constructor].
  - right. exists ls, l. repeat split; assumption.
Qed.

Lemma in_written_for lines line :
  In line lines -> In (written_for line) (map written_for lines).
Proof. intros H. apply in_map_iff. exists line. split; [reflexivity|exact H]. Qed.

Lemma directive_not_written line lines :
  is_directive line = true -> ~ In line (map written_for lines).
Proof.
  intros Hdir (l & Hl & _)%in_map_iff.
  pose proof (written_for_not_directive l) as H. rewrite Hl, Hdir in H.
  discriminate H.
Qed.

Lemma full_line_in_init init last line :
  In line (init ++ [last]) -> full_line last = false ->
  full_line line = true -> In line init.
Proof.
  intros [H|[<-|[]]]%in_app_or Hlast Hline; [exact H|congruence].
Qed.

Lemma filter_app_bool {A} (f : A -> bool) xs ys :
  List.filter f (xs ++ ys) = List.filter f xs ++ List.filter f ys.
Proof.
  induction xs as [|x xs IH]; [reflexivity|].
  cbn [app List.filter]. destruct (f x); cbn [app]; rewrite IH; reflexivity.
Qed.

Lemma plain_full_sublist lines :
  List.filter (fun l => is_plain l && full_line l) lines
    `sublist_of` map written_for lines.
Proof.
  induction lines as [|l ls IH]; [constructor|].
  cbn [List.filter map]. destruct (is_plain l && full_line l) eqn:E.
  - apply andb_true_iff in E as [[Hd _]%andb_true_iff _].
    apply negb_true_iff in Hd.
    rewrite (written_for_plain_or_header l Hd). apply sublist_skip, IH.
  - apply sublist_cons, IH.
Qed.

(** * The rewrite, claim by claim *)

(** C1, as stated, fails: the line ["socks [ProxyList]\n"] is a directive
    line that contains the marker, yet the loop writes it commented out
    and leaves the section flag unset. *)
Lemma header_precedence_counterexample :
  let line := "socks [ProxyList]" +:+ nl in
  is_directive line = true /\
  contains MARKER line = true /\
  rewrite_step ([], false) line = (["# " +:+ line], false) /\
  rewrite_step ([], false) line <> ([line], true).
Proof. vm_compute. repeat split; discriminate. Qed.

(** C1, amended: for a line that is a directive line and also contains the
    marker, the directive test wins: the line is written commented out
    and the section flag is left as it was. *)
Theorem directive_precedes_header line written found :
  is_directive line = true ->
  contains MARKER line = true ->
  rewrite_step (written, found) line = (written ++ ["# " +:+ line], found).
Proof.
  intros Hdir _. unfold rewrite_step. rewrite Hdir. reflexivity.
Qed.

Lemma directive_precedes_header_witness :
  is_directive ("socks [ProxyList]" +:+ nl) = true /\
  contains MARKER ("socks [ProxyList]" +:+ nl) = true /\
  rewrite_step (["# note" +:+ nl], false) ("socks [ProxyList]" +:+ nl) =
  (["# note" +:+ nl] ++ ["# " +:+ ("socks [ProxyList]" +:+ nl)], false).
Proof.
  split; [reflexivity|]. split; [reflexivity|].
  apply (directive_precedes_header ("socks [ProxyList]" +:+ nl)); reflexivity.
Defined.

(** C4, as stated, fails in three ways.  A file that already holds the Tor
    directive gets it commented out and then appended again, so the
    output does contain the original line.  A directive line that ends the
    file without LF is written commented out, but the appended directive
    follows on the same line, so ["# " + line] is no line of the output.
    And an unterminated last line may glue with the appended directive
    into a copy of a directive line of the input. *)
Lemma directive_disabled_counterexample :
  (let content := "[ProxyList]" +:+ nl +:+ "socks5 127.0.0.1 9050" +:+ nl in
   let line := "socks5 127.0.0.1 9050" +:+ nl in
   In line (readlines content) /\
   is_directive line = true /\
   In line (rewrite_writes (readlines content)) /\
   In line (output_lines content)) /\
  (let content := "[ProxyList]" +:+ nl +:+ "http 1.2.3.4 80" in
   let line := "http 1.2.3.4 80" in
   In line (readlines content) /\
   is_directive line = true /\
   output_lines content =
     ["[ProxyList]" +:+ nl; "# http 1.2.3.4 80socks5 127.0.0.1 9050" +:+ nl] /\
   ~ In ("# " +:+ line) (output_lines content)) /\
  (let content := " socks5 127.0.0.1 9050" +:+ nl +:+ "[ProxyList]" +:+ nl +:+ " " in
   let line := " socks5 127.0.0.1 9050" +:+ nl in
   In line (readlines content) /\
   is_directive line = true /\
   In line (output_lines content) /\
   line <> TOR_LINE).
Proof.
  vm_compute. repeat split; try tauto; try discriminate.
  intros [H|[H|[]]]; discriminate H.
Qed.

(** C4, amended: for every input file and every directive line of it, the
    rewrite writes ["# " + line]; when the line ends with LF, that text is
    a line of the output; and the output has the line itself as one of
    its lines only when the line is the Tor directive that the rewrite
    appends, or when it is what the unterminated last input line and the
    appended Tor directive make together. *)
Theorem directive_lines_disabled content line :
  In line (readlines content) ->
  is_directive line = true ->
  In ("# " +:+ line) (rewrite_writes (readlines content)) /\
  (full_line line = true -> In ("# " +:+ line) (output_lines content)) /\
  (In line (output_lines content) ->
   line = TOR_LINE \/
   exists init last,
     readlines content = init ++ [last] /\
     full_line last = false /\
     is_directive last = false /\
     existsb is_header (readlines content) = true /\
     line = last +:+ TOR_LINE).
Proof.
  intros Hin Hdir.
  assert (Hw : written_for line = "# " +:+ line)
    by (unfold written_for; rewrite Hdir; reflexivity).
  split; [|split].
  - rewrite rewrite_writes_closed, <- Hw. apply in_or_app. left.
    apply in_written_for, Hin.
  - intros Hfull. rewrite <- Hw.
    destruct (readlines_shape content) as [Hall|(init & last & E & _ & Hlast)].
    + rewrite (output_lines_terminated _ Hall). apply in_or_app. left.
      apply in_written_for, Hin.
    + rewrite (output_lines_unterminated _ _ _ E Hlast). apply in_or_app. left.
      rewrite E in Hin. apply in_written_for.
      apply (full_line_in_init _ _ _ Hin Hlast Hfull).
  - destruct (readlines_shape content) as [Hall|(init & last & E & _ & Hlast)].
    + rewrite (output_lines_terminated _ Hall).
      intros [H|H]%in_app_or; [destruct (directive_not_written _ _ Hdir H)|].
      left. destruct (existsb is_header (readlines content)).
      * destruct H as [<-|[]]. reflexivity.
      * destruct H as [<-|[<-|[<-|[]]]]; [discriminate Hdir..|reflexivity].
    + rewrite (output_lines_unterminated _ _ _ E Hlast).
      intros [H|H]%in_app_or; [destruct (directive_not_written _ _ Hdir H)|].
      destruct (existsb is_header (readlines content)) eqn:Ef.
      * destruct H as [<-|[]]. unfold written_for in *.
        destruct (is_directive last) eqn:El.
        -- rewrite append_assoc, is_directive_commented in Hdir. discriminate Hdir.
        -- right. exists init, last. repeat split; assumption.
      * destruct H as [<-|[<-|[<-|[]]]]; [| discriminate Hdir | left; reflexivity].
        rewrite is_directive_append_nl, written_for_not_directive in Hdir.
        discriminate Hdir.
Qed.

Lemma directive_lines_disabled_witness :
  let content := "http 1.2.3.4 80" +:+ nl +:+ "[ProxyList]" +:+ nl in
  let line := "http 1.2.3.4 80" +:+ nl in
  In line (readlines content) /\
  is_directive line = true /\
  full_line line = true /\
  In ("# " +:+ line) (rewrite_writes (readlines content)) /\
  In ("# " +:+ line) (output_lines content).
Proof.
  intros content line.
  assert (Hin : In line (readlines content)) by (left; reflexivity).
  assert (Hdir : is_directive line = true) by reflexivity.
  assert (Hfull : full_line line = true) by reflexivity.
  destruct (directive_lines_disabled content line Hin Hdir) as (Hw & Ho & _).
  split; [exact Hin|]. split; [exact Hdir|]. split; [exact Hfull|].
  split; [exact Hw|exact (Ho Hfull)].
Defined.

(** The same on the lines of the rewritten file, when every input line
    ends with LF. *)
Lemma directives_in_output_lines content line :
  Forall (fun l => full_line l = true) (readlines content) ->
  In line (readlines content) ->
  is_directive line = true ->
  In ("# " +:+ line) (output_lines content) /\
  (In line (output_lines content) -> line = TOR_LINE).
Proof.
  intros Hfull Hin Hdir. rewrite (output_lines_terminated _ Hfull). split.
  - apply in_or_app. left. apply in_map_iff. exists line. split; [|exact Hin].
    unfold written_for. rewrite Hdir. reflexivity.
  - intros [H|H]%in_app_or.
    + apply in_map_iff in H as (l & <- & _).
      rewrite written_for_not_directive in Hdir. discriminate.
    + destruct (existsb is_header (readlines content)).
      * destruct H as [<-|[]]. reflexivity.
      * destruct H as [<-|[<-|[<-|[]]]]; [discriminate Hdir..|reflexivity].
Qed.

(** C5, as stated, fails: the only line with the marker is a directive
    line, so it is commented out instead of copied, no section counts as
    found, and a header is written before the appended directive. *)
Lemma single_append_counterexample :
  let content := "socks [ProxyList]" +:+ nl in
  let line := "socks [ProxyList]" +:+ nl in
  In line (readlines content) /\
  contains MARKER line = true /\
  ~ In line (rewrite_writes (readlines content)) /\
  rewrite_writes (readlines content) = ["# " +:+ line; NEW_HEADER; TOR_LINE].
Proof.
  vm_compute. repeat split; [tauto|].
  intros [H|[H|[H|[]]]]; discriminate H.
Qed.

(** C5, amended: when some line contains the marker and is not a directive
    line, the writes are the per-line texts followed by the Tor directive,
    once, whatever the number of headers; every such header line is
    written unchanged; and no per-line text equals the Tor directive. *)
Theorem header_found_appends_once content :
  (exists line, In line (readlines content) /\
                contains MARKER line = true /\ is_directive line = false) ->
  rewrite_writes (readlines content) =
    map written_for (readlines content) ++ [TOR_LINE] /\
  rewrite_config content =
    join (map written_for (readlines content)) +:+ TOR_LINE /\
  (forall l, In l (readlines content) -> is_header l = true ->
             written_for l = l /\ In l (rewrite_writes (readlines content))) /\
  ~ In TOR_LINE (map written_for (readlines content)).
Proof.
  intros (line & Hin & Hmark & Hdir).
  pose proof (header_line_found _ _ Hin Hmark Hdir) as Hfound.
  assert (Hw : rewrite_writes (readlines content) =
               map written_for (readlines content) ++ [TOR_LINE]).
  { rewrite rewrite_writes_closed, Hfound. reflexivity. }
  split; [exact Hw|]. split; [|split].
  - unfold rewrite_config. rewrite Hw, join_app, join_singleton. reflexivity.
  - intros l Hl [Hd _]%andb_true_iff. apply negb_true_iff in Hd.
    pose proof (written_for_plain_or_header l Hd) as Hl'.
    split; [exact Hl'|]. rewrite Hw. apply in_or_app. left.
    apply in_map_iff. exists l. split; assumption.
  - apply tor_line_not_written.
Qed.

Lemma header_found_appends_once_witness :
  let content := "[ProxyList]" +:+ nl +:+ "http 1.2.3.4 80" +:+ nl
                 +:+ "[ProxyList]" +:+ nl in
  (exists line, In line (readlines content) /\
                contains MARKER line = true /\ is_directive line = false) /\
  rewrite_writes (readlines content) =
    map written_for (readlines content) ++ [TOR_LINE] /\
  rewrite_config content =
    join (map written_for (readlines content)) +:+ TOR_LINE /\
  (forall l, In l (readlines content) -> is_header l = true ->
             written_for l = l /\ In l (rewrite_writes (readlines content))) /\
  ~ In TOR_LINE (map written_for (readlines content)).
Proof.
  assert (H : exists line,
             In line (readlines ("[ProxyList]" +:+ nl +:+ "http 1.2.3.4 80" +:+ nl
                                 +:+ "[ProxyList]" +:+ nl)) /\
             contains MARKER line = true /\ is_directive line = false).
  { exists ("[ProxyList]" +:+ nl). repeat split; [left|..]; reflexivity. }
  split; [exact H|].
  exact (header_found_appends_once
           ("[ProxyList]" +:+ nl +:+ "http 1.2.3.4 80" +:+ nl
            +:+ "[ProxyList]" +:+ nl) H).
Defined.

(** C6, as stated, fails: a plain line that ends the file without LF is
    written as it is, but with a header found the appended directive
    follows on the same line, so the line is no line of the output. *)
Lemma plain_lines_counterexample :
  let content := "[ProxyList]" +:+ nl +:+ "strict_chain" in
  let line := "strict_chain" in
  In line (readlines content) /\
  is_plain line = true /\
  output_lines content =
    ["[ProxyList]" +:+ nl; "strict_chainsocks5 127.0.0.1 9050" +:+ nl] /\
  ~ In line (output_lines content) /\
  ~ In (line +:+ nl) (output_lines content).
Proof.
  vm_compute. repeat split; try tauto;
    intros [H|[H|[]]]; discriminate H.
Qed.

(** C6, amended: every line that is neither a directive line nor a header
    line is written unchanged by the loop, and these lines keep their
    relative order among the writes; those of them that end with LF are
    lines of the output, unchanged and in the same relative order. *)
Theorem plain_lines_kept content :
  (forall l written found,
     is_plain l = true ->
     rewrite_step (written, found) l = (written ++ [l], found)) /\
  List.filter is_plain (readlines content)
    `sublist_of` rewrite_writes (readlines content) /\
  List.filter (fun l => is_plain l && full_line l) (readlines content)
    `sublist_of` output_lines content.
Proof.
  split; [|split].
  - intros l written found [Hd Hm]%andb_true_iff.
    apply negb_true_iff in Hd, Hm. unfold rewrite_step. rewrite Hd, Hm.
    reflexivity.
  - rewrite rewrite_writes_closed. apply sublist_inserts_r.
    induction (readlines content) as [|l ls IH]; [constructor|].
    cbn [List.filter map]. destruct (is_plain l) eqn:E.
    + apply andb_true_iff in E as [Hd _]. apply negb_true_iff in Hd.
      rewrite (written_for_plain_or_header l Hd). apply sublist_skip, IH.
    + apply sublist_cons, IH.
  - destruct (readlines_shape content) as [Hall|(init & last & E & _ & Hlast)].
    + rewrite (output_lines_terminated _ Hall). apply sublist_inserts_r.
      apply plain_full_sublist.
    + rewrite (output_lines_unterminated _ _ _ E Hlast), E, filter_app_bool.
      cbn [List.filter]. rewrite Hlast, andb_false_r, app_nil_r.
      apply sublist_inserts_r, plain_full_sublist.
Qed.

Lemma plain_lines_kept_witness :
  let content := "# note" +:+ nl +:+ "http 1.2.3.4 80" +:+ nl
                 +:+ "[ProxyList]" +:+ nl +:+ "strict_chain" +:+ nl
                 +:+ "quiet_mode" in
  List.filter (fun l => is_plain l && full_line l) (readlines content) =
    ["# note" +:+ nl; "strict_chain" +:+ nl] /\
  (is_plain ("strict_chain" +:+ nl) = true ->
   rewrite_step ([], true) ("strict_chain" +:+ nl)
     = ([] ++ ["strict_chain" +:+ nl], true)) /\
  List.filter (fun l => is_plain l && full_line l) (readlines content)
    `sublist_of` output_lines content.
Proof.
  intros content. split; [reflexivity|].
  destruct (plain_lines_kept content) as (Hstep & _ & Hsub).
  split; [apply Hstep|exact Hsub].
Defined.

(** When every input line ends with LF, the plain lines are also lines of
    the rewritten file, in the same order. *)
Lemma plain_lines_in_output_lines content :
  Forall (fun l => full_line l = true) (readlines content) ->
  List.filter is_plain (readlines content) `sublist_of` output_lines content.
Proof.
  intros Hfull. rewrite (output_lines_terminated _ Hfull).
  apply sublist_inserts_r.
  induction (readlines content) as [|l ls IH]; [constructor|].
  inversion Hfull; subst.
  cbn [List.filter map]. destruct (is_plain l) eqn:E.
  - apply andb_true_iff in E as [Hd _]. apply negb_true_iff in Hd.
    rewrite (written_for_plain_or_header l Hd). apply sublist_skip, IH. assumption.
  - apply sublist_cons, IH. assumption.
Qed.

(** C9, as stated, fails in the branch without a header: the header text
    starts with LF, which ends the unterminated last line, so the header
    and the Tor directive each stand on a line of their own. *)
Lemma unterminated_fusion_counterexample :
  let content := "abc" in
  readlines content = ["abc"] /\
  full_line "abc" = false /\
  existsb is_header (readlines content) = false /\
  output_lines content = ["abc" +:+ nl; MARKER +:+ nl; TOR_LINE] /\
  ~ In ("abc" +:+ NEW_HEADER) (output_lines content) /\
  In TOR_LINE (output_lines content).
Proof.
  vm_compute. repeat split; [|tauto].
  intros [H|[H|[H|[]]]]; discriminate H.
Qed.

(** C9, amended: when the last input line lacks its LF, the appended text
    follows its characters directly.  With a header found, the last
    per-line text and the Tor directive make one output line; without
    one, the LF that starts the header text ends the last line, and the
    header and the directive are lines of their own. *)
Theorem unterminated_last_line content init last :
  readlines content = init ++ [last] ->
  full_line last = false ->
  rewrite_config content =
    join (map written_for init) +:+ written_for last +:+
    (if existsb is_header (readlines content) then TOR_LINE
     else NEW_HEADER +:+ TOR_LINE) /\
  output_lines content =
    map written_for init ++
    (if existsb is_header (readlines content)
     then [written_for last +:+ TOR_LINE]
     else [written_for last +:+ nl; MARKER +:+ nl; TOR_LINE]).
Proof.
  intros Hlines Hlast. split; [|exact (output_lines_unterminated _ _ _ Hlines Hlast)].
  unfold rewrite_config. rewrite rewrite_writes_closed, Hlines.
  rewrite map_app, !join_app. cbn [map]. rewrite join_singleton, append_assoc.
  do 2 f_equal.
  destruct (existsb is_header (init ++ [last])); cbn [join];
    rewrite ?append_empty_r; reflexivity.
Qed.

Lemma unterminated_last_line_witness :
  let content := "[ProxyList]" +:+ nl +:+ "abc" in
  let init := ["[ProxyList]" +:+ nl] in
  let last := "abc" in
  readlines content = init ++ [last] /\
  full_line last = false /\
  rewrite_config content =
    join (map written_for init) +:+ written_for last +:+
    (if existsb is_header (readlines content) then TOR_LINE
     else NEW_HEADER +:+ TOR_LINE) /\
  output_lines content =
    map written_for init ++
    (if existsb is_header (readlines content)
     then [written_for last +:+ TOR_LINE]
     else [written_for last +:+ nl; MARKER +:+ nl; TOR_LINE]).
Proof.
  split; [reflexivity|]. split; [reflexivity|].
  apply (unterminated_last_line ("[ProxyList]" +:+ nl +:+ "abc")
           ["[ProxyList]" +:+ nl] "abc"); reflexivity.
Defined.

(** C10: a line that contains the marker and is not a directive line,
    commented or not, sets the section flag: no header is written, the
    Tor directive is the only text appended, and when every marker line
    of the input is a comment, so is every marker line written. *)
Theorem commented_header_counts content line :
  In line (readlines content) ->
  contains MARKER line = true ->
  is_directive line = false ->
  rewrite_writes (readlines content) =
    map written_for (readlines content) ++ [TOR_LINE] /\
  ~ In NEW_HEADER (rewrite_writes (readlines content)) /\
  rewrite_config content =
    join (map written_for (readlines content)) +:+ TOR_LINE /\
  ((forall l, In l (readlines content) -> contains MARKER l = true ->
              is_comment l = true) ->
   forall w, In w (rewrite_writes (readlines content)) ->
             contains MARKER w = true -> is_comment w = true).
Proof.
  intros Hin Hmark Hdir.
  pose proof (header_line_found _ _ Hin Hmark Hdir) as Hfound.
  assert (Hw : rewrite_writes (readlines content) =
               map written_for (readlines content) ++ [TOR_LINE]).
  { rewrite rewrite_writes_closed, Hfound. reflexivity. }
  split; [exact Hw|]. split; [|split].
  - rewrite Hw. intros [H|[H|[]]]%in_app_or; [|discriminate H].
    apply in_map_iff in H as (l & Hl & Hlin).
    unfold written_for in Hl. destruct (is_directive l) eqn:E.
    + discriminate Hl.
    + subst l. apply (lines_ok_no_header _ Hlin (readlines_ok content)).
  - unfold rewrite_config. rewrite Hw, join_app, join_singleton. reflexivity.
  - intros Hall w. rewrite Hw. intros [H|[<-|[]]]%in_app_or Hm; [|discriminate Hm].
    apply in_map_iff in H as (l & <- & Hl). unfold written_for in *.
    destruct (is_directive l); [apply is_comment_commented|].
    apply Hall; assumption.
Qed.

Lemma commented_header_counts_witness :
  let content := "# [ProxyList]" +:+ nl in
  let line := "# [ProxyList]" +:+ nl in
  In line (readlines content) /\
  contains MARKER line = true /\
  is_directive line = false /\
  rewrite_writes (readlines content) =
    map written_for (readlines content) ++ [TOR_LINE] /\
  ~ In NEW_HEADER (rewrite_writes (readlines content)) /\
  rewrite_config content =
    join (map written_for (readlines content)) +:+ TOR_LINE /\
  ((forall l, In l (readlines content) -> contains MARKER l = true ->
              is_comment l = true) ->
   forall w, In w (rewrite_writes (readlines content)) ->
             contains MARKER w = true -> is_comment w = true).
Proof.
  split; [left; reflexivity|]. split; [reflexivity|]. split; [reflexivity|].
  apply (commented_header_counts ("# [ProxyList]" +:+ nl) ("# [ProxyList]" +:+ nl));
    [left; reflexivity|reflexivity|reflexivity].
Defined.

(** The commented header of C10, run through the rewrite. *)
Example commented_header_example :
  rewrite_config ("# [ProxyList]" +:+ nl) =
    "# [ProxyList]" +:+ nl +:+ "socks5 127.0.0.1 9050" +:+ nl /\
  Forall (fun l => is_comment l = true \/ contains MARKER l = false)
    (output_lines ("# [ProxyList]" +:+ nl)).
Proof.
  split; [reflexivity|].
  assert (E : output_lines ("# [ProxyList]" +:+ nl) =
              ["# [ProxyList]" +:+ nl; TOR_LINE]) by reflexivity.
  rewrite E. constructor; [left; reflexivity|].
  constructor; [right; reflexivity|]. constructor.
Qed.
(** * Facts about the script *)

Lemma backup_file_neq : backup_file <> config_file.
Proof. discriminate. Qed.

Lemma bind_returned {Env A B} (m : M Env A) (k : A -> M Env B) w a w' :
  m w = (Returned a, w') -> bind m k w = k a w'.
Proof. intros H. unfold bind. rewrite H. reflexivity. Qed.

Lemma bind_exited {Env A B} (m : M Env A) (k : A -> M Env B) w code w' :
  m w = (Exited code, w') -> bind m k w = (Exited code, w').
Proof. intros H. unfold bind. rewrite H. reflexivity. Qed.

Lemma bind_print {Env B} msg (k : unit -> M Env B) w :
  bind (print msg) k w = k tt (printed [msg] w).
Proof. reflexivity. Qed.

Lemma printed_printed {Env} a b (w : World Env) :
  printed b (printed a w) = printed (a ++ b) w.
Proof. unfold printed. cbn. rewrite app_assoc. reflexivity. Qed.

(** Step 3 when the file is there: a backup is taken, then the file is
    rewritten. *)
Lemma configure_proxychains_present {Env} (w : World Env) c :
  files w !! config_file = Some c ->
  exists out,
    configure_proxychains w =
    (Returned tt,
     mkWorld (env w)
       (<[config_file := rewrite_config c]> (<[backup_file := c]> (files w)))
       (stdout w ++ out) (procs w) (euid w)).
Proof.
  intros H.
  unfold configure_proxychains, bind, print, os_path_exists, shutil_copyfile,
    read_lines, open_w, close_w, set_files, sys_exit.
  cbn [files env stdout procs euid].
  rewrite H, bool_decide_eq_true_2 by eauto.
  cbn [negb files env stdout procs euid]. rewrite H.
  cbn [files env stdout procs euid].
  rewrite (lookup_insert_ne _ _ _ _ backup_file_neq), H.
  unfold rewrite_config, rewrite_writes.
  destruct (rewrite_loop (readlines c)) as [written [|]];
    cbn [files env stdout procs euid]; rewrite insert_insert_eq, <- !app_assoc;
    eexists; reflexivity.
Qed.

(** Step 3 when the file is missing. *)
Lemma configure_proxychains_missing {Env} (w : World Env) :
  files w !! config_file = None ->
  configure_proxychains w =
  (Exited 1,
   printed [nl +:+ "[Step 3] Configuring ProxyChains...";
            "[ERROR] ProxyChains configuration file not found at " +:+ config_file] w).
Proof.
  intros H.
  unfold configure_proxychains, bind, print, os_path_exists, sys_exit, printed.
  cbn [files env stdout procs euid].
  rewrite H, bool_decide_eq_false_2 by (intros [? ?]; discriminate).
  cbn [negb files env stdout procs euid]. rewrite <- app_assoc. reflexivity.
Qed.

Lemma configure_proxychains_config {Env} (w : World Env) c :
  files w !! config_file = Some c ->
  (configure_proxychains w).1 = Returned tt /\
  files (configure_proxychains w).2 !! config_file = Some (rewrite_config c) /\
  files (configure_proxychains w).2 !! backup_file = Some c.
Proof.
  intros H. destruct (configure_proxychains_present w c H) as [out ->].
  cbn [fst snd files]. split; [reflexivity|].
  rewrite lookup_insert_eq, (lookup_insert_ne _ _ _ _ (not_eq_sym backup_file_neq)),
    lookup_insert_eq.
  split; reflexivity.
Qed.

(** * The steps, claim by claim *)

(** C3, as stated, fails: on the file ["# comment only\n"] the rewrite
    puts no empty line between the new header and the Tor directive. *)
Lemma comment_only_counterexample :
  let w := one_file_world ("# comment only" +:+ nl) in
  files w !! config_file = Some ("# comment only" +:+ nl) /\
  files (configure_proxychains w).2 !! config_file =
    Some ("# comment only" +:+ nl +:+ nl +:+ "[ProxyList]" +:+ nl
          +:+ "socks5 127.0.0.1 9050" +:+ nl) /\
  files (configure_proxychains w).2 !! config_file <>
    Some ("# comment only" +:+ nl +:+ nl +:+ "[ProxyList]" +:+ nl +:+ nl
          +:+ "socks5 127.0.0.1 9050" +:+ nl).
Proof.
  intros w.
  assert (H : files w !! config_file = Some ("# comment only" +:+ nl))
    by apply lookup_singleton_eq.
  destruct (configure_proxychains_config w _ H) as (_ & -> & _).
  split; [exact H|]. split; [reflexivity|]. vm_compute. discriminate.
Qed.

(** C3, amended: on the file ["# comment only\n"] the step succeeds and
    leaves ["# comment only\n\n[ProxyList]\nsocks5 127.0.0.1 9050\n"]. *)
Theorem comment_only_rewrite {Env} (w : World Env) :
  files w !! config_file = Some ("# comment only" +:+ nl) ->
  (configure_proxychains w).1 = Returned tt /\
  files (configure_proxychains w).2 !! config_file =
    Some ("# comment only" +:+ nl +:+ nl +:+ "[ProxyList]" +:+ nl
          +:+ "socks5 127.0.0.1 9050" +:+ nl).
Proof.
  intros H. destruct (configure_proxychains_config w _ H) as (-> & -> & _).
  split; reflexivity.
Qed.

Lemma comment_only_rewrite_witness :
  let w := one_file_world ("# comment only" +:+ nl) in
  files w !! config_file = Some ("# comment only" +:+ nl) /\
  (configure_proxychains w).1 = Returned tt /\
  files (configure_proxychains w).2 !! config_file =
    Some ("# comment only" +:+ nl +:+ nl +:+ "[ProxyList]" +:+ nl
          +:+ "socks5 127.0.0.1 9050" +:+ nl).
Proof.
  split; [reflexivity|].
  apply (comment_only_rewrite (one_file_world ("# comment only" +:+ nl))).
  reflexivity.
Defined.

(** C8: without a configuration file the step prints the error and exits
    with status 1, whatever would follow it; the file system is left as
    it was: no backup appears and the configuration file stays absent. *)
Theorem missing_config_aborts {Env} (w : World Env) :
  files w !! config_file = None ->
  exit_status (configure_proxychains w).1 = 1%Z /\
  (configure_proxychains w).1 = Exited 1 /\
  last (stdout (configure_proxychains w).2) =
    Some ("[ERROR] ProxyChains configuration file not found at " +:+ config_file) /\
  files (configure_proxychains w).2 = files w /\
  files (configure_proxychains w).2 !! backup_file = files w !! backup_file /\
  files (configure_proxychains w).2 !! config_file = None /\
  (forall B (k : unit -> M Env B),
     bind configure_proxychains k w = (Exited 1, (configure_proxychains w).2)).
Proof.
  intros H. pose proof (configure_proxychains_missing w H) as E.
  rewrite E. cbn [fst snd files stdout printed exit_status].
  repeat split; trivial.
  - change [?a; ?b] with ([a] ++ [b]). rewrite app_assoc. apply last_snoc.
  - intros B k. apply bind_exited, E.
Qed.

Lemma missing_config_aborts_witness :
  let w : World unit := mkWorld tt ∅ [] [] 0 in
  files w !! config_file = None /\
  exit_status (configure_proxychains w).1 = 1%Z /\
  files (configure_proxychains w).2 = files w.
Proof.
  split; [reflexivity|].
  destruct (missing_config_aborts (mkWorld tt ∅ [] [] 0%Z)) as (H1 & _ & _ & H4 & _).
  - reflexivity.
  - split; [exact H1|exact H4].
Defined.

Lemma existsb_is_header_written lines :
  existsb is_header lines = true ->
  existsb is_header (map written_for lines) = true.
Proof.
  intros (l & Hin & Hl)%existsb_exists. apply existsb_exists. exists l.
  split; [|exact Hl]. apply in_map_iff. exists l. split; [|exact Hin].
  apply andb_true_iff in Hl as [Hd _]. apply negb_true_iff in Hd.
  apply written_for_plain_or_header, Hd.
Qed.

(** Rewriting a rewritten file whose Tor directive stands on its own
    line: that directive is commented out and a new one is appended. *)
Lemma rewrite_config_twice c :
  Forall (fun l => full_line l = true) (readlines c) ->
  exists body,
    output_lines c = body ++ [TOR_LINE] /\
    rewrite_config (rewrite_config c) =
      join (map written_for body) +:+ ("# " +:+ TOR_LINE) +:+ TOR_LINE.
Proof.
  intros Hfull. pose proof (output_lines_terminated c Hfull) as Hout.
  set (lines := readlines c) in *.
  exists (map written_for lines ++
          (if existsb is_header lines then [] else [nl; MARKER +:+ nl])).
  assert (Hsplit : output_lines c =
            (map written_for lines ++
             (if existsb is_header lines then [] else [nl; MARKER +:+ nl]))
            ++ [TOR_LINE]).
  { rewrite Hout, <- app_assoc. destruct (existsb is_header lines); reflexivity. }
  split; [exact Hsplit|].
  change (rewrite_config (rewrite_config c))
    with (join (rewrite_writes (output_lines c))).
  rewrite Hsplit, rewrite_writes_closed.
  set (body := map written_for lines ++ _).
  assert (Hfound : existsb is_header (body ++ [TOR_LINE]) = true).
  { rewrite existsb_app. apply orb_true_iff. left. subst body.
    rewrite existsb_app. destruct (existsb is_header lines) eqn:E.
    - rewrite (existsb_is_header_written _ E). reflexivity.
    - apply orb_true_r. }
  rewrite Hfound, map_app, !join_app, append_assoc. reflexivity.
Qed.

(** C2, as stated, fails: run twice on ["[ProxyList]\n"], the step does
    comment out the Tor directive that its first run appended. *)
Lemma second_run_counterexample :
  let w := one_file_world ("[ProxyList]" +:+ nl) in
  let w1 := (configure_proxychains w).2 in
  let w2 := (configure_proxychains w1).2 in
  files w1 !! config_file = Some ("[ProxyList]" +:+ nl +:+ TOR_LINE) /\
  files w2 !! config_file =
    Some ("[ProxyList]" +:+ nl +:+ "# " +:+ TOR_LINE +:+ TOR_LINE) /\
  In ("# " +:+ TOR_LINE)
     (readlines ("[ProxyList]" +:+ nl +:+ "# " +:+ TOR_LINE +:+ TOR_LINE)) /\
  files w1 !! backup_file = Some ("[ProxyList]" +:+ nl) /\
  files w2 !! backup_file = Some ("[ProxyList]" +:+ nl +:+ TOR_LINE).
Proof. vm_compute. tauto. Qed.

(** C2, amended: both runs succeed; the second backup replaces the first
    and holds the output of the first run; and when every line of the
    original file ends with LF, the second run comments out the Tor
    directive appended by the first run and appends a new one. *)
Theorem second_run_disables_appended_line {Env} (w : World Env) c :
  files w !! config_file = Some c ->
  let w1 := (configure_proxychains w).2 in
  let w2 := (configure_proxychains w1).2 in
  (configure_proxychains w).1 = Returned tt /\
  (configure_proxychains w1).1 = Returned tt /\
  files w1 !! backup_file = Some c /\
  files w1 !! config_file = Some (rewrite_config c) /\
  files w2 !! backup_file = Some (rewrite_config c) /\
  files w2 !! config_file = Some (rewrite_config (rewrite_config c)) /\
  (Forall (fun l => full_line l = true) (readlines c) ->
   exists body,
     output_lines c = body ++ [TOR_LINE] /\
     rewrite_config (rewrite_config c) =
       join (map written_for body) +:+ ("# " +:+ TOR_LINE) +:+ TOR_LINE).
Proof.
  intros H w1 w2.
  destruct (configure_proxychains_config w c H) as (R1 & C1 & B1).
  destruct (configure_proxychains_config w1 _ C1) as (R2 & C2 & B2).
  repeat split; trivial. apply rewrite_config_twice.
Qed.

Lemma second_run_disables_appended_line_witness :
  let c := "[ProxyList]" +:+ nl +:+ "http 1.2.3.4 80" +:+ nl in
  let w := one_file_world c in
  let w2 := (configure_proxychains (configure_proxychains w).2).2 in
  files w !! config_file = Some c /\
  Forall (fun l => full_line l = true) (readlines c) /\
  files w2 !! backup_file = Some (rewrite_config c) /\
  exists body,
    output_lines c = body ++ [TOR_LINE] /\
    rewrite_config (rewrite_config c) =
      join (map written_for body) +:+ ("# " +:+ TOR_LINE) +:+ TOR_LINE.
Proof.
  intros c w w2.
  assert (Hc : files w !! config_file = Some c) by reflexivity.
  assert (Hfull : Forall (fun l => full_line l = true) (readlines c))
    by (repeat constructor).
  destruct (second_run_disables_appended_line w c Hc)
    as (_ & _ & _ & _ & B2 & _ & Htwice).
  split; [exact Hc|]. split; [exact Hfull|]. split; [exact B2|].
  exact (Htwice Hfull).
Defined.

(** ** Runs that stop only with status 1 *)

Section Disciplined.
Context {Env : Type}.
Implicit Types w : World Env.

Lemma disciplined_bind {A B} (m : M Env A) (k : A -> M Env B) :
  disciplined m -> (forall a, disciplined (k a)) -> disciplined (bind m k).
Proof.
  intros Hm Hk w. destruct (Hm w) as (new1 & Hp & Hr).
  unfold bind. destruct (m w) as [r w1]. cbn [fst snd] in *.
  destruct Hr as [[[a ->] Hh]| ->].
  - destruct (Hk a w1) as (new2 & Hp2 & Hr2). exists (new1 ++ new2).
    rewrite Hp2, Hp, app_assoc. split; [reflexivity|].
    destruct Hr2 as [[Ha Hh2]|Hx]; [left|right; exact Hx].
    split; [exact Ha|]. apply Forall_app. split; assumption.
  - exists new1. split; [exact Hp|]. right. reflexivity.
Qed.

(** A computation that runs no command and returns. *)
Lemma disciplined_quiet {A} (m : M Env A) :
  (forall w, procs (m w).2 = procs w /\ exists a, (m w).1 = Returned a) ->
  disciplined m.
Proof.
  intros H w. destruct (H w) as [Hp Ha]. exists []. rewrite app_nil_r.
  split; [exact Hp|]. left. split; [exact Ha|constructor].
Qed.

Lemma disciplined_print msg : disciplined (Env:=Env) (print msg).
Proof. apply disciplined_quiet. intros w. split; [reflexivity|]. exists tt. reflexivity. Qed.

Lemma disciplined_ret {A} (a : A) : disciplined (Env:=Env) (ret a).
Proof. apply disciplined_quiet. intros w. split; [reflexivity|]. exists a. reflexivity. Qed.

Lemma disciplined_input : disciplined (Env:=Env) input.
Proof. apply disciplined_quiet. intros w. split; [reflexivity|]. eexists. reflexivity. Qed.

Lemma disciplined_sleep seconds : disciplined (Env:=Env) (time_sleep seconds).
Proof. apply disciplined_quiet. intros w. split; [reflexivity|]. exists tt. reflexivity. Qed.

Lemma disciplined_geteuid : disciplined (Env:=Env) os_geteuid.
Proof. apply disciplined_quiet. intros w. split; [reflexivity|]. eexists. reflexivity. Qed.

Lemma disciplined_exists path : disciplined (Env:=Env) (os_path_exists path).
Proof. apply disciplined_quiet. intros w. split; [reflexivity|]. eexists. reflexivity. Qed.

Lemma disciplined_open_w path : disciplined (Env:=Env) (open_w path).
Proof. apply disciplined_quiet. intros w. split; [reflexivity|]. exists tt. reflexivity. Qed.

Lemma disciplined_close_w path written : disciplined (Env:=Env) (close_w path written).
Proof. apply disciplined_quiet. intros w. split; [reflexivity|]. exists tt. reflexivity. Qed.

Lemma disciplined_exit_1 {A} : disciplined (Env:=Env) (A:=A) (sys_exit 1).
Proof. intros w. exists []. rewrite app_nil_r. split; [reflexivity|]. right. reflexivity. Qed.

Lemma disciplined_if {A} (b : bool) (m1 m2 : M Env A) :
  disciplined m1 -> disciplined m2 -> disciplined (if b then m1 else m2).
Proof. destruct b; trivial. Qed.

(** [if os.path.exists(path): print(...); os.remove(path)], then the
    rest of the step. *)
Lemma disciplined_remove_if_present {B} path msg (k : unit -> M Env B) :
  (forall a, disciplined (k a)) ->
  disciplined
    (bind (os_path_exists path) (fun present =>
       bind (if present then bind (print msg) (fun _ => os_remove path)
             else ret tt) k)).
Proof.
  intros Hk w.
  assert (E : exists w', procs w' = procs w /\
     bind (os_path_exists path) (fun present =>
       bind (if present then bind (print msg) (fun _ => os_remove path)
             else ret tt) k) w = k tt w').
  { unfold bind, os_path_exists, print, os_remove, ret, set_files.
    cbn [files env stdout procs euid].
    destruct (files w !! path) eqn:E.
    - rewrite bool_decide_eq_true_2 by eauto. cbn [files]. rewrite E.
      eexists. split; [|reflexivity]. reflexivity.
    - rewrite bool_decide_eq_false_2 by (intros [? ?]; discriminate).
      exists w. split; reflexivity. }
  destruct E as (w' & Hp' & ->).
  destruct (Hk tt w') as (new & Hp & Hr). exists new.
  rewrite <- Hp'. split; assumption.
Qed.

Lemma disciplined_configure : disciplined (Env:=Env) configure_proxychains.
Proof.
  intros w. exists []. rewrite app_nil_r.
  destruct (files w !! config_file) as [c|] eqn:E.
  - destruct (configure_proxychains_present w c E) as [out ->].
    split; [reflexivity|]. left. split; [exists tt; reflexivity|constructor].
  - rewrite (configure_proxychains_missing w E).
    split; [reflexivity|]. right. reflexivity.
Qed.

Variable shell : string -> Env -> gmap string string -> Z * Env * gmap string string.

(** What [run_cmd] does, by the command's return code. *)
Lemma run_cmd_unfold command check w :
  run_cmd shell command check w =
  let '(rc, e, fs) := shell command (env w) (files w) in
  let w' := mkWorld e fs (stdout w ++ [nl +:+ "-> Running: " +:+ command])
                    (procs w ++ [(command, rc)]) (euid w) in
  if check && negb (rc =? 0)%Z then
    (Exited 1,
     printed ["[ERROR] Command failed with exit code " +:+ str_int rc
              +:+ ": " +:+ command] w')
  else (Returned rc, w').
Proof.
  unfold run_cmd, bind, print, subprocess_run, sys_exit, ret, printed.
  cbn [files env stdout procs euid].
  destruct (shell command (env w) (files w)) as [[rc e] fs].
  destruct (check && negb (rc =? 0)%Z); reflexivity.
Qed.

Lemma disciplined_run_cmd_checked command :
  disciplined (run_cmd shell command true).
Proof.
  intros w. rewrite run_cmd_unfold.
  destruct (shell command (env w) (files w)) as [[rc e] fs].
  exists [(command, rc)]. cbn [andb]. destruct (rc =? 0)%Z eqn:E; cbn [negb fst snd procs printed].
  - split; [reflexivity|]. left. split; [eexists; reflexivity|].
    constructor; [|constructor]. left. apply Z.eqb_eq, E.
  - split; [reflexivity|]. right. reflexivity.
Qed.

Lemma disciplined_run_cmd_purge : disciplined (run_cmd shell PURGE_CMD false).
Proof.
  intros w. rewrite run_cmd_unfold.
  destruct (shell PURGE_CMD (env w) (files w)) as [[rc e] fs].
  exists [(PURGE_CMD, rc)]. cbn [andb fst snd procs].
  split; [reflexivity|]. left. split; [eexists; reflexivity|].
  constructor; [|constructor]. right. reflexivity.
Qed.

Create HintDb toxy.
#[local] Hint Resolve disciplined_print disciplined_ret disciplined_geteuid
  disciplined_input disciplined_sleep
  disciplined_exists disciplined_open_w disciplined_close_w disciplined_exit_1
  disciplined_configure
  disciplined_run_cmd_checked disciplined_run_cmd_purge : toxy.

Ltac discipline :=
  repeat first
    [ apply disciplined_remove_if_present; intros ?
    | solve [auto with toxy]
    | apply disciplined_bind; [|intros ?]
    | apply disciplined_if ].

Lemma disciplined_cleanup : disciplined (cleanup_existing_install shell).
Proof. unfold cleanup_existing_install. cbv zeta. discipline. Qed.

Lemma disciplined_install : disciplined (install_tor_and_proxychains shell).
Proof. unfold install_tor_and_proxychains. cbv zeta. discipline. Qed.

Lemma disciplined_start : disciplined (start_tor_and_provide_instructions shell).
Proof. unfold start_tor_and_provide_instructions. discipline. Qed.

Lemma disciplined_main : disciplined (main shell).
Proof.
  unfold main.
  pose proof disciplined_cleanup. pose proof disciplined_install.
  pose proof disciplined_start. discipline.
Qed.



(** As root, the script prints its banner and runs the four steps. *)
Lemma main_as_root :
  exists banner (finish : M Env unit), forall w,
    euid w = 0%Z ->
    main shell w =
    bind (cleanup_existing_install shell) (fun _ =>
      bind (install_tor_and_proxychains shell) (fun _ =>
        bind configure_proxychains (fun _ => finish))) (printed banner w).
Proof.
  eexists. eexists. intros w Hroot. unfold main.
  rewrite !bind_print, !printed_printed.
  unfold bind at 1, input. unfold bind at 1, os_geteuid. cbn [euid printed].
  rewrite Hroot. cbn [Z.eqb negb]. unfold bind at 1, ret.
  reflexivity.
Qed.

(** As anyone else, it prints its banner and the error, and exits. *)
Lemma main_not_root w :
  euid w <> 0%Z ->
  exists msgs, main shell w = (Exited 1, printed msgs w).
Proof.
  intros Hroot. eexists. unfold main.
  rewrite !bind_print, !printed_printed.
  unfold bind at 1, input. unfold bind at 1, os_geteuid. cbn [euid printed].
  apply Z.eqb_neq in Hroot. rewrite Hroot. cbn [negb].
  unfold bind at 1. rewrite bind_print. unfold sys_exit.
  rewrite printed_printed. reflexivity.
Qed.

Lemma bind_returned_inv {A B} (m : M Env A) (k : A -> M Env B) w b w2 :
  bind m k w = (Returned b, w2) ->
  exists a w1, m w = (Returned a, w1) /\ k a w1 = (Returned b, w2).
Proof.
  unfold bind. destruct (m w) as [[a| |] w1]; [eauto|discriminate..].
Qed.


(** Step 2 ends with the package installation: when it returns, the
    files are those that command left. *)
Lemma install_files w w' :
  install_tor_and_proxychains shell w = (Returned tt, w') ->
  exists e fs, files w' = (shell "apt install -y tor proxychains4" e fs).2.
Proof.
  unfold install_tor_and_proxychains. cbv zeta. intros H.
  repeat (apply bind_returned_inv in H as (? & ? & ? & H)).
  revert H. unfold print. intros [= <-]. cbn [files].
  match goal with
  | Hrun : run_cmd shell "apt install -y tor proxychains4" true ?w0 = _ |- _ =>
      rewrite run_cmd_unfold in Hrun; exists (env w0), (files w0);
      destruct (shell "apt install -y tor proxychains4" (env w0) (files w0))
        as [[rc e] fs];
      cbn [andb] in Hrun; destruct (negb (rc =? 0)%Z);
      [discriminate Hrun|injection Hrun as _ <-; reflexivity]
  end.
Qed.

End Disciplined.

(** C7: the script ends by returning (status 0) or by [sys.exit(1)]
    (status 1).  It exits with status 1 when not run as root, and then
    leaves files, environment and command history as they were; when
    step 3 is reached without a configuration file; and when a command
    run with the must-succeed flag returns a non-zero code. *)
Theorem main_exit_status {Env}
    (shell : string -> Env -> gmap string string -> Z * Env * gmap string string)
    (w : World Env) :
  (((main shell w).1 = Returned tt /\ exit_status (main shell w).1 = 0%Z) \/
   ((main shell w).1 = Exited 1 /\ exit_status (main shell w).1 = 1%Z)) /\
  (euid w <> 0%Z ->
   exit_status (main shell w).1 = 1%Z /\
   files (main shell w).2 = files w /\
   env (main shell w).2 = env w /\
   procs (main shell w).2 = procs w) /\
  (exists banner, forall w2 w3,
     euid w = 0%Z ->
     cleanup_existing_install shell (printed banner w) = (Returned tt, w2) ->
     install_tor_and_proxychains shell w2 = (Returned tt, w3) ->
     files w3 !! config_file = None ->
     exit_status (main shell w).1 = 1%Z /\ files (main shell w).2 = files w3) /\
  ((forall e fs,
      (shell "apt install -y tor proxychains4" e fs).2 !! config_file = None) ->
   exit_status (main shell w).1 = 1%Z) /\
  (forall command w',
     (shell command (env w') (files w')).1.1 <> 0%Z ->
     (run_cmd shell command true w').1 = Exited 1) /\
  (exists new,
     procs (main shell w).2 = procs w ++ new /\
     forall command rc,
       In (command, rc) new -> rc <> 0%Z -> command <> PURGE_CMD ->
       exit_status (main shell w).1 = 1%Z).
Proof.
  destruct (disciplined_main shell w) as (new & Hprocs & Hres).
  destruct (main_as_root shell) as (banner & finish & Hroot).
  assert (Hends : ((main shell w).1 = Returned tt /\ exit_status (main shell w).1 = 0%Z) \/
                  ((main shell w).1 = Exited 1 /\ exit_status (main shell w).1 = 1%Z)).
  { destruct Hres as [[[[] Ha] _]|Hx]; [left; rewrite Ha|right; rewrite Hx];
      split; reflexivity. }
  assert (Hmissing : forall w2 w3,
     euid w = 0%Z ->
     cleanup_existing_install shell (printed banner w) = (Returned tt, w2) ->
     install_tor_and_proxychains shell w2 = (Returned tt, w3) ->
     files w3 !! config_file = None ->
     exit_status (main shell w).1 = 1%Z /\ files (main shell w).2 = files w3).
  { intros w2 w3 H0 Hc Hi Hf.
    rewrite (Hroot w H0), (bind_returned _ _ _ _ _ Hc), (bind_returned _ _ _ _ _ Hi).
    rewrite (bind_exited _ _ _ _ _ (configure_proxychains_missing w3 Hf)).
    split; reflexivity. }
  split; [exact Hends|]. split; [|split; [|split; [|split]]].
  - intros Hne. destruct (main_not_root shell w Hne) as [msgs ->].
    repeat split; reflexivity.
  - exists banner. exact Hmissing.
  - intros Hshell. destruct Hends as [[Hret _]|[_ Hx]]; [|exact Hx].
    destruct (Z.eq_dec (euid w) 0%Z) as [H0|Hne].
    + rewrite (Hroot w H0) in Hret.
      destruct (bind _ _ (printed banner w)) as [r wf] eqn:Em.
      cbn [fst] in Hret. subst r.
      apply bind_returned_inv in Em as ([] & w2 & Hc & Em).
      apply bind_returned_inv in Em as ([] & w3 & Hi & Em).
      refine (proj1 (Hmissing w2 w3 H0 Hc Hi _)).
      destruct (install_files shell _ _ Hi) as (e & fs & ->). apply Hshell.
    + destruct (main_not_root shell w Hne) as [msgs ->]. reflexivity.
  - intros command w' Hrc. rewrite run_cmd_unfold.
    destruct (shell command (env w') (files w')) as [[rc e] fs].
    cbn [fst] in Hrc. apply Z.eqb_neq in Hrc. rewrite Hrc. reflexivity.
  - exists new. split; [exact Hprocs|]. intros command rc Hin Hrc Hcmd.
    destruct Hres as [[_ Hall]|Hx]; [|rewrite Hx; reflexivity].
    rewrite List.Forall_forall in Hall. destruct (Hall _ Hin) as [H|H]; contradiction.
Qed.

Lemma main_exit_status_witness :
  let user : World unit := mkWorld tt ∅ [] [] 1000 in
  let root : World unit := mkWorld tt ∅ [] [] 0 in
  (euid user <> 0%Z /\
   exit_status (main no_config_shell user).1 = 1%Z /\
   files (main no_config_shell user).2 = files user) /\
  ((forall e fs,
      (no_config_shell "apt install -y tor proxychains4" e fs).2 !! config_file
      = None) /\
   exit_status (main no_config_shell root).1 = 1%Z).
Proof.
  intros user root.
  assert (Huser : euid user <> 0%Z) by discriminate.
  assert (Hshell : forall e fs,
            (no_config_shell "apt install -y tor proxychains4" e fs).2
              !! config_file = None)
    by (intros e fs; apply lookup_delete_eq).
  destruct (main_exit_status no_config_shell user) as (_ & Hu & _).
  destruct (main_exit_status no_config_shell root) as (_ & _ & _ & Hr & _).
  destruct (Hu Huser) as (Hu1 & Hu2 & _).
  split; [split; [exact Huser|split; [exact Hu1|exact Hu2]]|].
  split; [exact Hshell|exact (Hr Hshell)].
Defined.

(** A full run: as root, with every command succeeding and a stock
    configuration installed, the script returns and the status is 0. *)
Example main_completes :
  let root : World unit := mkWorld tt ∅ [] [] 0 in
  (main stock_shell root).1 = Returned tt /\
  exit_status (main stock_shell root).1 = 0%Z /\
  files (main stock_shell root).2 !! config_file =
    Some ("[ProxyList]" +:+ nl +:+ "# socks4 127.0.0.1 9050" +:+ nl +:+ TOR_LINE).
Proof. vm_compute. repeat split. Qed.

(** A failing must-succeed command: the script stops there, status 1. *)
Example main_stops_on_failure :
  let root : World unit := mkWorld tt ∅ [] [] 0 in
  let failing := fun (command : string) (e : unit) (fs : gmap string string) =>
                   if String.eqb command "apt update" then (100%Z, e, fs)
                   else (0%Z, e, fs) in
  exit_status (main failing root).1 = 1%Z /\
  procs (main failing root).2 =
    [("apt purge -y tor torbrowser-launcher", 0%Z); ("apt autoremove -y", 0%Z);
     ("apt update", 100%Z)] /\
  last (stdout (main failing root).2) =
    Some "[ERROR] Command failed with exit code 100: apt update".
Proof. vm_compute. repeat split. Qed.

(** * Further facts about the rewrite *)

Lemma lstrip_all_space ws s : all_space ws = true -> lstrip (ws +:+ s) = lstrip s.
Proof.
  induction ws as [|c ws IH]; [reflexivity|].
  cbn [all_space]. intros [Hc Hws]%andb_true_iff.
  rewrite append_cons. cbn [lstrip]. rewrite Hc. apply IH, Hws.
Qed.

Lemma rstrip_cons_visible c s :
  isspace c = false -> rstrip (String c s) = String c (rstrip s).
Proof. intros H. cbn [rstrip]. destruct (rstrip s); rewrite ?H; reflexivity. Qed.

Lemma is_directive_indented ws line :
  all_space ws = true -> is_directive (ws +:+ line) = is_directive line.
Proof.
  intros H. unfold is_directive, strip. rewrite (lstrip_all_space _ _ H).
  reflexivity.
Qed.

Lemma is_directive_socks rest : is_directive ("socks" +:+ rest) = true.
Proof.
  unfold is_directive, strip, startswith.
  change (lstrip ("socks" +:+ rest)) with ("socks" +:+ rest).
  change ("socks" +:+ rest)
    with (String "s" (String "o" (String "c" (String "k" (String "s" rest))))).
  rewrite !rstrip_cons_visible by reflexivity.
  destruct (rstrip rest); reflexivity.
Qed.

Lemma is_directive_http rest : is_directive ("http" +:+ rest) = true.
Proof.
  unfold is_directive, strip, startswith.
  change (lstrip ("http" +:+ rest)) with ("http" +:+ rest).
  change ("http" +:+ rest)
    with (String "h" (String "t" (String "t" (String "p" rest)))).
  rewrite !rstrip_cons_visible by reflexivity.
  destruct (rstrip rest); reflexivity.
Qed.

(** The loop comments out every line whose first visible characters are
    the keyword: any text may follow ["socks"] or ["http"], indentation
    does not matter to the test and is kept in what is written, and the
    section flag is left as it was. *)
Theorem directive_test_is_a_prefix_test ws rest written found :
  all_space ws = true ->
  rewrite_step (written, found) (ws +:+ "socks" +:+ rest)
    = (written ++ ["# " +:+ ws +:+ "socks" +:+ rest], found) /\
  rewrite_step (written, found) (ws +:+ "http" +:+ rest)
    = (written ++ ["# " +:+ ws +:+ "http" +:+ rest], found).
Proof.
  intros H. unfold rewrite_step.
  rewrite !(is_directive_indented _ _ H), is_directive_socks, is_directive_http.
  split; reflexivity.
Qed.

Lemma directive_test_is_a_prefix_test_witness :
  let ws := String "009" " " in
  let rest := "_proxy on" +:+ nl in
  all_space ws = true /\
  rewrite_step (["[ProxyList]" +:+ nl], true) (ws +:+ "socks" +:+ rest)
    = (["[ProxyList]" +:+ nl] ++ ["# " +:+ ws +:+ "socks" +:+ rest], true) /\
  rewrite_step (["[ProxyList]" +:+ nl], true) (ws +:+ "http" +:+ rest)
    = (["[ProxyList]" +:+ nl] ++ ["# " +:+ ws +:+ "http" +:+ rest], true).
Proof.
  split; [reflexivity|].
  apply (directive_test_is_a_prefix_test (String "009" " ") ("_proxy on" +:+ nl)).
  reflexivity.
Defined.

Lemma comment_not_directive line :
  startswith (strip line) "#" = true -> is_directive line = false.
Proof.
  unfold is_directive, startswith.
  destruct (strip line) as [|c s]; [discriminate|].
  cbn [String.prefix].
  destruct (ascii_dec "#" c) as [<-|]; [reflexivity|discriminate].
Qed.

(** The loop writes a comment line as it is: a line whose stripped form
    starts with ["#"] is not commented out again, and it sets the section
    flag exactly when it contains the marker. *)
Theorem comments_left_alone line written found :
  startswith (strip line) "#" = true ->
  rewrite_step (written, found) line
    = (written ++ [line], found || contains MARKER line).
Proof.
  intros H. unfold rewrite_step. rewrite (comment_not_directive _ H).
  destruct (contains MARKER line); rewrite ?orb_true_r, ?orb_false_r; reflexivity.
Qed.

Lemma comments_left_alone_witness :
  let line := "  # socks4 127.0.0.1 9050" +:+ nl in
  startswith (strip line) "#" = true /\
  rewrite_step ([], false) line = ([] ++ [line], false || contains MARKER line).
Proof.
  split; [reflexivity|].
  apply (comments_left_alone ("  # socks4 127.0.0.1 9050" +:+ nl)). reflexivity.
Defined.

(** None of the texts that the loop writes for input lines is a
    directive line, so the loop run over the texts it wrote writes the
    same texts again. *)
Theorem per_line_pass_idempotent lines :
  Forall (fun w => is_directive w = false) (rewrite_loop lines).1 /\
  (rewrite_loop (rewrite_loop lines).1).1 = (rewrite_loop lines).1.
Proof.
  rewrite !rewrite_loop_closed. cbn [fst]. split.
  - induction lines as [|l lines IH]; constructor;
      [apply written_for_not_directive|exact IH].
  - induction lines as [|l lines IH]; [reflexivity|].
    cbn [map]. rewrite IH. f_equal.
    apply written_for_plain_or_header, written_for_not_directive.
Qed.

Lemma prefix_append p a b :
  String.prefix p a = true -> String.prefix p (a +:+ b) = true.
Proof.
  revert a. induction p as [|x p IH]; intros a.
  - intros _. destruct (a +:+ b); reflexivity.
  - destruct a as [|y a]; [discriminate|].
    rewrite append_cons. cbn [String.prefix].
    destruct (ascii_dec x y); [apply IH|discriminate].
Qed.

Lemma contains_append_l p a b :
  contains p a = true -> contains p (a +:+ b) = true.
Proof.
  induction a as [|c a IH].
  - cbn [contains]. rewrite orb_false_r. intros H.
    pose proof (prefix_append p "" b H) as H'.
    change ("" +:+ b) with b in *.
    destruct b; cbn [contains]; rewrite H'; reflexivity.
  - cbn [contains]. intros [H|H]%orb_true_iff.
    + rewrite append_cons. cbn [contains].
      pose proof (prefix_append _ _ b H) as H'. rewrite append_cons in H'.
      rewrite H'. reflexivity.
    + rewrite append_cons. cbn [contains]. rewrite (IH H). apply orb_true_r.
Qed.

Lemma contains_append_r p a b :
  contains p b = true -> contains p (a +:+ b) = true.
Proof.
  intros H. induction a as [|c a IH]; [exact H|].
  rewrite append_cons. cbn [contains]. rewrite IH. apply orb_true_r.
Qed.

Lemma contains_join p w ws :
  In w ws -> contains p w = true -> contains p (join ws) = true.
Proof.
  induction ws as [|x ws IH]; [intros []|].
  intros [->|Hin] Hw; cbn [join].
  - apply contains_append_l, Hw.
  - apply contains_append_r, IH; assumption.
Qed.

Lemma no_directive_written lines :
  List.filter is_directive (map written_for lines) = [].
Proof.
  induction lines as [|l lines IH]; [reflexivity|].
  cbn [map List.filter]. rewrite written_for_not_directive. exact IH.
Qed.

Lemma filter_is_directive_app xs ys :
  List.filter is_directive (xs ++ ys) =
  List.filter is_directive xs ++ List.filter is_directive ys.
Proof.
  induction xs as [|x xs IH]; [reflexivity|].
  cbn [app List.filter]. destruct (is_directive x); cbn [app]; rewrite IH; reflexivity.
Qed.

(** After the rewrite the Tor directive is the only active proxy entry:
    among the texts written it is the only directive line, and so it is
    among the lines of the file when every input line ends with LF. *)
Theorem tor_is_the_only_active_directive content :
  List.filter is_directive (rewrite_writes (readlines content)) = [TOR_LINE] /\
  (Forall (fun l => full_line l = true) (readlines content) ->
   List.filter is_directive (output_lines content) = [TOR_LINE]).
Proof.
  split.
  - rewrite rewrite_writes_closed, filter_is_directive_app, no_directive_written.
    destruct (existsb is_header (readlines content)); reflexivity.
  - intros Hfull.
    rewrite (output_lines_terminated _ Hfull), filter_is_directive_app,
      no_directive_written.
    destruct (existsb is_header (readlines content)); reflexivity.
Qed.

Lemma tor_is_the_only_active_directive_witness :
  let content := "[ProxyList]" +:+ nl +:+ "socks4 127.0.0.1 9050" +:+ nl
                 +:+ "http 10.0.0.1 3128" +:+ nl in
  Forall (fun l => full_line l = true) (readlines content) /\
  List.filter is_directive (readlines content) =
    ["socks4 127.0.0.1 9050" +:+ nl; "http 10.0.0.1 3128" +:+ nl] /\
  List.filter is_directive (output_lines content) = [TOR_LINE].
Proof.
  intros content.
  assert (Hfull : Forall (fun l => full_line l = true) (readlines content))
    by (repeat constructor).
  split; [exact Hfull|]. split; [reflexivity|].
  exact (proj2 (tor_is_the_only_active_directive content) Hfull).
Defined.

(** Whatever the input, the rewritten text ends with the Tor directive
    and the marker occurs before it. *)
Theorem rewrite_ends_with_tor_after_marker content :
  exists body,
    rewrite_config content = body +:+ TOR_LINE /\
    contains MARKER body = true.
Proof.
  unfold rewrite_config. rewrite rewrite_writes_closed.
  destruct (existsb is_header (readlines content)) eqn:E.
  - exists (join (map written_for (readlines content))). split.
    + rewrite join_app, join_singleton. reflexivity.
    + apply existsb_exists in E as (l & Hin & Hl).
      apply andb_true_iff in Hl as [Hd Hm]. apply negb_true_iff in Hd.
      apply (contains_join _ l); [|exact Hm].
      apply in_map_iff. exists l. split; [|exact Hin].
      apply written_for_plain_or_header, Hd.
  - exists (join (map written_for (readlines content)) +:+ NEW_HEADER). split.
    + rewrite join_app. cbn [join]. rewrite append_empty_r, append_assoc.
      reflexivity.
    + apply contains_append_r. reflexivity.
Qed.

(** The rewritten text has LF line ends only, whatever the input had:
    no CR is ever written, and reading the file back returns the text. *)
Theorem rewrite_writes_no_cr content :
  no_cr (rewrite_config content) = true /\
  join (output_lines content) = rewrite_config content.
Proof.
  assert (H : no_cr (rewrite_config content) = true).
  { unfold rewrite_config. apply no_cr_join. rewrite rewrite_writes_closed.
    apply Forall_app. split.
    - apply Forall_written_for_no_cr, readlines_no_cr.
    - destruct (existsb is_header (readlines content)); repeat constructor. }
  split; [exact H|]. unfold output_lines, readlines.
  rewrite (universal_newlines_id _ H). apply join_splitlines_keep.
Qed.

Lemma written_for_all_plain lines :
  (forall l, In l lines -> is_directive l = false) ->
  map written_for lines = lines.
Proof.
  induction lines as [|l lines IH]; [reflexivity|].
  intros H. cbn [map]. rewrite (written_for_plain_or_header l), IH.
  - reflexivity.
  - intros l' Hl'. apply H. right. exact Hl'.
  - apply H. left. reflexivity.
Qed.

(** A file without any directive line is only appended to: the new text
    is the text read, followed by the Tor directive, with the header in
    between when no line carries the marker. *)
Theorem no_directive_only_appends content :
  (forall l, In l (readlines content) -> is_directive l = false) ->
  rewrite_config content =
    universal_newlines content +:+
    (if existsb is_header (readlines content) then TOR_LINE
     else NEW_HEADER +:+ TOR_LINE).
Proof.
  intros H. unfold rewrite_config.
  rewrite rewrite_writes_closed, (written_for_all_plain _ H), join_app.
  unfold readlines at 1. rewrite join_splitlines_keep. f_equal.
  destruct (existsb is_header (readlines content)); cbn [join];
    rewrite ?append_empty_r; reflexivity.
Qed.

Lemma no_directive_only_appends_witness :
  let content := "# proxychains" +:+ nl +:+ "strict_chain" +:+ nl
                 +:+ "[ProxyList]" +:+ nl in
  (forall l, In l (readlines content) -> is_directive l = false) /\
  rewrite_config content = content +:+ TOR_LINE.
Proof.
  intros content.
  assert (H : forall l, In l (readlines content) -> is_directive l = false).
  { intros l [<-|[<-|[<-|[]]]]; reflexivity. }
  split; [exact H|]. exact (no_directive_only_appends content H).
Defined.

(** * Further facts about the script *)

(** ** The commands of a run *)

Section Runs.
Context {Env : Type}.
Implicit Types w : World Env.

Lemma Forall_removelast {A} (P : A -> Prop) (l : list A) :
  Forall P l -> Forall P (removelast l).
Proof.
  induction 1 as [|x l Hx Hl IH]; [constructor|].
  cbn [removelast]. destruct l; [constructor|]. constructor; assumption.
Qed.

Lemma runs_bind {A B} (m : M Env A) (k : A -> M Env B) cs1 cs2 :
  runs m cs1 -> (forall a, runs (k a) cs2) -> runs (bind m k) (cs1 ++ cs2).
Proof.
  intros Hm Hk w. destruct (Hm w) as (new1 & Hp & Hr).
  unfold bind. destruct (m w) as [r w1]. cbn [fst snd] in *.
  destruct Hr as [([a ->] & Hcs & Hh)|(-> & Hpre & Hh)].
  - destruct (Hk a w1) as (new2 & Hp2 & Hr2). exists (new1 ++ new2).
    rewrite Hp2, Hp, app_assoc. split; [reflexivity|].
    rewrite map_app, Hcs.
    destruct Hr2 as [(Ha & Hcs2 & Hh2)|(Hx & Hpre2 & Hh2)]; [left|right].
    + split; [exact Ha|]. split; [rewrite Hcs2; reflexivity|].
      apply Forall_app. split; assumption.
    + split; [exact Hx|]. split; [apply prefix_app, Hpre2|].
      destruct new2 as [|c new2].
      * rewrite app_nil_r. apply Forall_removelast, Hh.
      * rewrite removelast_app by discriminate.
        apply Forall_app. split; assumption.
  - exists new1. split; [exact Hp|]. right.
    split; [reflexivity|]. split; [apply prefix_app_r, Hpre|exact Hh].
Qed.

Lemma runs_conv {A} (m : M Env A) cs cs' : runs m cs -> cs = cs' -> runs m cs'.
Proof. intros H <-. exact H. Qed.

(** A computation that runs no command and returns. *)
Lemma runs_quiet {A} (m : M Env A) :
  (forall w, procs (m w).2 = procs w /\ exists a, (m w).1 = Returned a) ->
  runs m [].
Proof.
  intros H w. destruct (H w) as [Hp Ha]. exists []. rewrite app_nil_r.
  split; [exact Hp|]. left. split; [exact Ha|]. split; [reflexivity|constructor].
Qed.

Lemma runs_print msg : runs (Env:=Env) (print msg) [].
Proof. apply runs_quiet. intros w. split; [reflexivity|]. exists tt. reflexivity. Qed.

Lemma runs_input : runs (Env:=Env) input [].
Proof. apply runs_quiet. intros w. split; [reflexivity|]. eexists. reflexivity. Qed.

Lemma runs_sleep seconds : runs (Env:=Env) (time_sleep seconds) [].
Proof. apply runs_quiet. intros w. split; [reflexivity|]. exists tt. reflexivity. Qed.

Lemma runs_geteuid : runs (Env:=Env) os_geteuid [].
Proof. apply runs_quiet. intros w. split; [reflexivity|]. eexists. reflexivity. Qed.

Lemma runs_open_w path : runs (Env:=Env) (open_w path) [].
Proof. apply runs_quiet. intros w. split; [reflexivity|]. exists tt. reflexivity. Qed.

Lemma runs_close_w path written : runs (Env:=Env) (close_w path written) [].
Proof. apply runs_quiet. intros w. split; [reflexivity|]. exists tt. reflexivity. Qed.

(** The root check: it returns, or prints and exits. *)
Lemma runs_exit_or_go (b : bool) msg :
  runs (Env:=Env) (if b then bind (print msg) (fun _ => sys_exit 1) else ret tt) [].
Proof.
  intros w. exists []. rewrite app_nil_r. destruct b.
  - split; [reflexivity|]. right. split; [reflexivity|].
    split; [apply prefix_nil|constructor].
  - split; [reflexivity|]. left. split; [exists tt; reflexivity|].
    split; [reflexivity|constructor].
Qed.

Lemma runs_remove_if_present {B} path msg (k : unit -> M Env B) cs :
  (forall a, runs (k a) cs) ->
  runs
    (bind (os_path_exists path) (fun present =>
       bind (if present then bind (print msg) (fun _ => os_remove path)
             else ret tt) k)) cs.
Proof.
  intros Hk w.
  assert (E : exists w', procs w' = procs w /\
     bind (os_path_exists path) (fun present =>
       bind (if present then bind (print msg) (fun _ => os_remove path)
             else ret tt) k) w = k tt w').
  { unfold bind, os_path_exists, print, os_remove, ret, set_files.
    cbn [files env stdout procs euid].
    destruct (files w !! path) eqn:E.
    - rewrite bool_decide_eq_true_2 by eauto. cbn [files]. rewrite E.
      eexists. split; [|reflexivity]. reflexivity.
    - rewrite bool_decide_eq_false_2 by (intros [? ?]; discriminate).
      exists w. split; reflexivity. }
  destruct E as (w' & Hp' & ->).
  destruct (Hk tt w') as (new & Hp & Hr). exists new.
  rewrite <- Hp'. split; assumption.
Qed.

Lemma runs_configure : runs (Env:=Env) configure_proxychains [].
Proof.
  intros w. exists []. rewrite app_nil_r.
  destruct (files w !! config_file) as [c|] eqn:E.
  - destruct (configure_proxychains_present w c E) as [out ->].
    split; [reflexivity|]. left. split; [exists tt; reflexivity|].
    split; [reflexivity|constructor].
  - rewrite (configure_proxychains_missing w E).
    split; [reflexivity|]. right. split; [reflexivity|].
    split; [apply prefix_nil|constructor].
Qed.

Variable shell : string -> Env -> gmap string string -> Z * Env * gmap string string.

Lemma runs_run_cmd_checked command : runs (run_cmd shell command true) [command].
Proof.
  intros w. rewrite run_cmd_unfold.
  destruct (shell command (env w) (files w)) as [[rc e] fs].
  exists [(command, rc)]. cbn [andb].
  destruct (rc =? 0)%Z eqn:E; cbn [negb fst snd procs printed].
  - split; [reflexivity|]. left. split; [eexists; reflexivity|].
    split; [reflexivity|]. constructor; [|constructor].
    left. apply Z.eqb_eq, E.
  - split; [reflexivity|]. right. split; [reflexivity|].
    split; [reflexivity|constructor].
Qed.

Lemma runs_run_cmd_purge : runs (run_cmd shell PURGE_CMD false) [PURGE_CMD].
Proof.
  intros w. rewrite run_cmd_unfold.
  destruct (shell PURGE_CMD (env w) (files w)) as [[rc e] fs].
  exists [(PURGE_CMD, rc)]. cbn [andb fst snd procs].
  split; [reflexivity|]. left. split; [eexists; reflexivity|].
  split; [reflexivity|]. constructor; [|constructor]. right. reflexivity.
Qed.

Ltac trace :=
  repeat first
    [ apply runs_print | apply runs_input | apply runs_sleep
    | apply runs_geteuid | apply runs_open_w | apply runs_close_w
    | apply runs_exit_or_go | apply runs_configure
    | apply runs_run_cmd_purge | apply runs_run_cmd_checked
    | apply runs_remove_if_present; intros ?
    | eapply runs_bind; [|intros ?] ].

Lemma runs_cleanup :
  runs (cleanup_existing_install shell)
       [PURGE_CMD; "apt autoremove -y"; "apt update"].
Proof.
  eapply runs_conv; [unfold cleanup_existing_install; cbv zeta; trace|reflexivity].
Qed.

Lemma runs_install :
  runs (install_tor_and_proxychains shell)
       [KEY_CMD; "chmod 644 /usr/share/keyrings/tor-archive-keyring.gpg";
        "apt update"; INSTALL_CMD].
Proof.
  eapply runs_conv; [unfold install_tor_and_proxychains; cbv zeta; trace|reflexivity].
Qed.

Lemma runs_start : runs (start_tor_and_provide_instructions shell) [START_CMD].
Proof.
  eapply runs_conv; [unfold start_tor_and_provide_instructions; trace|reflexivity].
Qed.

Lemma runs_main : runs (main shell) COMMANDS.
Proof.
  eapply runs_conv.
  - unfold main.
    repeat first
      [ apply runs_cleanup | apply runs_install | apply runs_start
      | apply runs_print | apply runs_input | apply runs_geteuid
      | apply runs_exit_or_go | apply runs_configure
      | eapply runs_bind; [|intros ?] ].
  - reflexivity.
Qed.

End Runs.

(** A run that returns has run exactly the eight commands of the script,
    in order, and each of them except the purge returned 0. *)
Theorem successful_run_commands {Env}
    (shell : string -> Env -> gmap string string -> Z * Env * gmap string string)
    (w : World Env) :
  (main shell w).1 = Returned tt ->
  exists rc,
    procs (main shell w).2 =
    procs w ++
    [ (PURGE_CMD, rc); ("apt autoremove -y", 0%Z); ("apt update", 0%Z);
      (KEY_CMD, 0%Z);
      ("chmod 644 /usr/share/keyrings/tor-archive-keyring.gpg", 0%Z);
      ("apt update", 0%Z); (INSTALL_CMD, 0%Z); (START_CMD, 0%Z) ].
Proof.
  intros Hret. destruct (runs_main shell w) as (new & Hp & Hr).
  destruct Hr as [(_ & Hcs & Hh)|(Hx & _)]; [|rewrite Hx in Hret; discriminate].
  rewrite Hp. clear Hp Hret.
  do 8 (destruct new as [|[? ?] new]; [discriminate Hcs|]).
  destruct new; [|discriminate Hcs].
  injection Hcs as -> -> -> -> -> -> -> ->.
  repeat match goal with
         | H : Forall harmless (_ :: _) |- _ => inversion H; clear H; subst
         end.
  repeat match goal with
         | H : harmless (?c, _) |- _ =>
             destruct H as [H|H]; cbn [fst snd] in H;
             [try subst|try discriminate H]
         end.
  all: eexists; reflexivity.
Qed.

Lemma successful_run_commands_witness :
  let root : World unit := mkWorld tt ∅ [] [] 0 in
  (main stock_shell root).1 = Returned tt /\
  exists rc,
    procs (main stock_shell root).2 =
    procs root ++
    [ (PURGE_CMD, rc); ("apt autoremove -y", 0%Z); ("apt update", 0%Z);
      (KEY_CMD, 0%Z);
      ("chmod 644 /usr/share/keyrings/tor-archive-keyring.gpg", 0%Z);
      ("apt update", 0%Z); (INSTALL_CMD, 0%Z); (START_CMD, 0%Z) ].
Proof.
  intros root.
  assert (H : (main stock_shell root).1 = Returned tt) by (vm_compute; reflexivity).
  split; [exact H|]. exact (successful_run_commands stock_shell root H).
Defined.

(** Whatever happens, the commands run are a first part of the script's
    command list, and a must-succeed command that returns a non-zero code
    is the last command run: the script exits with status 1 there. *)
Theorem no_command_after_a_failure {Env}
    (shell : string -> Env -> gmap string string -> Z * Env * gmap string string)
    (w : World Env) :
  exists new,
    procs (main shell w).2 = procs w ++ new /\
    map fst new `prefix_of` COMMANDS /\
    forall pre command rc post,
      new = pre ++ (command, rc) :: post ->
      rc <> 0%Z -> command <> PURGE_CMD ->
      post = [] /\ (main shell w).1 = Exited 1.
Proof.
  destruct (runs_main shell w) as (new & Hp & Hr).
  exists new. split; [exact Hp|].
  assert (Hbad : forall l pre command rc post,
            Forall harmless l -> l = pre ++ (command, rc) :: post ->
            rc <> 0%Z -> command <> PURGE_CMD -> False).
  { intros l pre command rc post Hl -> Hrc Hcmd.
    apply Forall_app in Hl as [_ Hl]. inversion Hl as [|? ? [H|H] _]; subst;
      cbn [fst snd] in H; contradiction. }
  destruct Hr as [(_ & Hcs & Hh)|(Hx & Hpre & Hh)].
  - split; [rewrite Hcs; reflexivity|].
    intros pre command rc post E Hrc Hcmd.
    destruct (Hbad _ _ _ _ _ Hh E Hrc Hcmd).
  - split; [exact Hpre|].
    intros pre command rc post -> Hrc Hcmd. split; [|exact Hx].
    destruct post as [|p post]; [reflexivity|].
    rewrite removelast_app in Hh by discriminate.
    cbn [removelast] in Hh.
    destruct (Hbad _ pre command rc (removelast (p :: post)) Hh eq_refl Hrc Hcmd).
Qed.

Lemma no_command_after_a_failure_witness :
  let root : World unit := mkWorld tt ∅ [] [] 0 in
  procs (main offline_shell root).2 =
    [(PURGE_CMD, 0%Z); ("apt autoremove -y", 0%Z)] ++ [("apt update", 100%Z)] /\
  (main offline_shell root).1 = Exited 1.
Proof.
  intros root.
  destruct (no_command_after_a_failure offline_shell root) as (new & Hp & _ & H).
  assert (Hnew : new = [(PURGE_CMD, 0%Z); ("apt autoremove -y", 0%Z)]
                       ++ ("apt update", 100%Z) :: []).
  { change (procs root ++ new) with new in Hp. rewrite <- Hp.
    vm_compute. reflexivity. }
  split; [vm_compute; reflexivity|].
  apply (H _ _ _ _ Hnew); discriminate.
Defined.

(** ** What the steps do to the files *)

Section Triples.
Context {Env : Type}.
Implicit Types w : World Env.
Implicit Types P E : gmap string string -> Prop.

Lemma triple_bind {A B} P (m : M Env A) (k : A -> M Env B) R Q E :
  triple P m R E -> (forall a, triple (R a) (k a) Q E) ->
  triple P (bind m k) Q E.
Proof.
  intros Hm Hk w HP. specialize (Hm w HP). unfold bind.
  destruct (m w) as [[a|code|exn] w1]; cbn [fst snd] in *.
  - apply (Hk a w1 Hm).
  - exact Hm.
  - exact Hm.
Qed.

Lemma triple_weaken {A} P P' (m : M Env A) (Q Q' : A -> _ -> Prop) E E' :
  triple P m Q E ->
  (forall fs, P' fs -> P fs) ->
  (forall a fs, Q a fs -> Q' a fs) ->
  (forall fs, E fs -> E' fs) ->
  triple P' m Q' E'.
Proof.
  intros Hm HP HQ HE w H. specialize (Hm w (HP _ H)).
  destruct ((m w).1); auto.
Qed.

(** A computation that returns and leaves the files alone. *)
Lemma triple_still {A} P (m : M Env A) E :
  (forall w, files (m w).2 = files w /\ exists a, (m w).1 = Returned a) ->
  triple P m (fun _ => P) E.
Proof.
  intros H w HP. destruct (H w) as [Hf [a Ha]]. rewrite Ha, Hf. exact HP.
Qed.

Lemma triple_print P msg E : triple (Env:=Env) P (print msg) (fun _ => P) E.
Proof. apply triple_still. intros w. split; [reflexivity|]. exists tt. reflexivity. Qed.

Lemma triple_input P E : triple (Env:=Env) P input (fun _ => P) E.
Proof. apply triple_still. intros w. split; [reflexivity|]. eexists. reflexivity. Qed.

Lemma triple_sleep P seconds E : triple (Env:=Env) P (time_sleep seconds) (fun _ => P) E.
Proof. apply triple_still. intros w. split; [reflexivity|]. exists tt. reflexivity. Qed.

Lemma triple_close_w P path written E :
  triple (Env:=Env) P (close_w path written)
    (fun _ fs => fs !! path = Some (join written)) E.
Proof. intros w _. cbn. apply lookup_insert_eq. Qed.

Lemma triple_close_w_any P path written E :
  triple (Env:=Env) P (close_w path written) (fun _ _ => True) E.
Proof. intros w _. exact I. Qed.

Lemma triple_open_w P path E :
  triple (Env:=Env) P (open_w path) (fun _ _ => True) E.
Proof. intros w _. exact I. Qed.

Lemma triple_remove_if_present {B} P path msg (k : unit -> M Env B) Q E :
  (forall a, triple (fun fs => exists fs0, P fs0 /\ fs = delete path fs0) (k a) Q E) ->
  triple P
    (bind (os_path_exists path) (fun present =>
       bind (if present then bind (print msg) (fun _ => os_remove path)
             else ret tt) k)) Q E.
Proof.
  intros Hk w HP.
  assert (Eq : exists w', files w' = delete path (files w) /\
     bind (os_path_exists path) (fun present =>
       bind (if present then bind (print msg) (fun _ => os_remove path)
             else ret tt) k) w = k tt w').
  { unfold bind, os_path_exists, print, os_remove, ret, set_files.
    cbn [files env stdout procs euid].
    destruct (files w !! path) eqn:Ef.
    - rewrite bool_decide_eq_true_2 by eauto. cbn [files]. rewrite Ef.
      eexists. split; [|reflexivity]. reflexivity.
    - rewrite bool_decide_eq_false_2 by (intros [? ?]; discriminate).
      exists w. split; [|reflexivity]. symmetry. apply delete_id, Ef. }
  destruct Eq as (w' & Hf & ->). apply Hk. exists (files w). split; assumption.
Qed.

(** Step 3: it returns with the backup and the rewritten file in place,
    or exits because there is no configuration file. *)
Lemma triple_configure P :
  triple (Env:=Env) P configure_proxychains
    (fun _ fs => exists c, fs !! backup_file = Some c /\
                           fs !! config_file = Some (rewrite_config c))
    (fun fs => P fs /\ fs !! config_file = None).
Proof.
  intros w HP. destruct (files w !! config_file) as [c|] eqn:Ec.
  - destruct (configure_proxychains_config w c Ec) as (-> & Hc & Hb).
    exists c. split; assumption.
  - rewrite (configure_proxychains_missing w Ec). cbn. split; assumption.
Qed.

Lemma triple_of_disciplined {A} (m : M Env A) :
  disciplined m -> triple (fun _ => True) m (fun _ _ => True) (fun _ => True).
Proof.
  intros H w _. destruct (H w) as (new & _ & [[[a ->] _]| ->]); exact I.
Qed.

Variable shell : string -> Env -> gmap string string -> Z * Env * gmap string string.

(** A command run with the must-succeed flag. *)
Lemma triple_run_cmd P command R E :
  (forall e fs, P fs -> R (shell command e fs).2) ->
  (forall fs, R fs -> E fs) ->
  triple P (run_cmd shell command true) (fun _ => R) E.
Proof.
  intros HR HE w HP. rewrite run_cmd_unfold.
  specialize (HR (env w) (files w) HP).
  destruct (shell command (env w) (files w)) as [[rc e] fs]. cbn [snd] in HR.
  cbn [andb]. destruct (negb (rc =? 0)%Z); cbn; auto.
Qed.

(** A command run without the flag never makes the script exit. *)
Lemma triple_run_cmd_unchecked P command R E :
  (forall e fs, P fs -> R (shell command e fs).2) ->
  triple P (run_cmd shell command false) (fun _ => R) E.
Proof.
  intros HR w HP. rewrite run_cmd_unfold.
  specialize (HR (env w) (files w) HP).
  destruct (shell command (env w) (files w)) as [[rc e] fs]. exact HR.
Qed.

(** A command that always returns 0 never makes the script exit. *)
Lemma triple_run_cmd_ok P command R E :
  (forall e fs, (shell command e fs).1.1 = 0%Z) ->
  (forall e fs, P fs -> R (shell command e fs).2) ->
  triple P (run_cmd shell command true) (fun _ => R) E.
Proof.
  intros H0 HR w HP. rewrite run_cmd_unfold.
  specialize (HR (env w) (files w) HP). specialize (H0 (env w) (files w)).
  destruct (shell command (env w) (files w)) as [[rc e] fs].
  cbn [fst snd] in *. subst rc. exact HR.
Qed.

End Triples.

Section Steps.
Context {Env : Type}.
Variable shell : string -> Env -> gmap string string -> Z * Env * gmap string string.
Implicit Types w : World Env.

Ltac still :=
  first [ apply triple_print | apply triple_input | apply triple_sleep ].

Ltac walk := repeat (eapply triple_bind; [still|intros ?; cbv beta]).

(** As root, the script prints its banner, runs the four steps and ends
    with three more messages. *)
Lemma main_as_root_steps :
  exists banner (closing : M Env unit),
    (forall w, exists out, closing w = (Returned tt, printed out w)) /\
    forall w, euid w = 0%Z ->
      main shell w =
      bind (cleanup_existing_install shell) (fun _ =>
        bind (install_tor_and_proxychains shell) (fun _ =>
          bind configure_proxychains (fun _ =>
            bind (start_tor_and_provide_instructions shell) (fun _ =>
              closing)))) (printed banner w).
Proof.
  eexists. eexists. split; cycle 1.
  - intros w Hroot. unfold main.
    rewrite !bind_print, !printed_printed.
    unfold bind at 1, input. unfold bind at 1, os_geteuid. cbn [euid printed].
    rewrite Hroot. cbn [Z.eqb negb]. unfold bind at 1, ret.
    reflexivity.
  - intros w. rewrite !bind_print, !printed_printed.
    eexists. unfold print, printed. cbn [env files stdout procs euid].
    rewrite <- app_assoc. reflexivity.
Qed.

Lemma triple_closing (closing : M Env unit) P E :
  (forall w, exists out, closing w = (Returned tt, printed out w)) ->
  triple P closing (fun _ => P) E.
Proof.
  intros H. apply triple_still. intros w. destruct (H w) as [out ->].
  split; [reflexivity|]. exists tt. reflexivity.
Qed.

(** *** Step 1 *)


Lemma triple_cleanup_gone :
  (forall command e fs,
     In command ["apt autoremove -y"; "apt update"] ->
     old_files_gone fs -> old_files_gone (shell command e fs).2) ->
  triple (fun _ => True) (cleanup_existing_install shell)
         (fun _ => old_files_gone) old_files_gone.
Proof.
  intros Hsh. unfold cleanup_existing_install. cbv zeta. walk.
  eapply triple_bind; [apply (triple_run_cmd_unchecked _ _ _ (fun _ => True)); auto|intros ?; cbv beta].
  apply triple_remove_if_present. intros ?.
  apply triple_remove_if_present. intros ?.
  apply (triple_weaken old_files_gone _ _ (fun _ => old_files_gone) _ old_files_gone);
    [|intros fs (fs1 & (fs0 & _ & ->) & ->)|auto..].
  - eapply triple_bind;
      [apply (triple_run_cmd _ _ _ old_files_gone);
       [intros e fs; apply Hsh; left; reflexivity|auto]|intros ?; cbv beta].
    eapply triple_bind;
      [apply (triple_run_cmd _ _ _ old_files_gone);
       [intros e fs; apply Hsh; right; left; reflexivity|auto]|intros ?; cbv beta].
    still.
  - split; [|apply lookup_delete_eq].
    rewrite lookup_delete_ne by discriminate. apply lookup_delete_eq.
Qed.


(** *** Step 2 *)

Lemma triple_install_repo :
  (forall command e fs,
     In command ["apt update"; INSTALL_CMD] ->
     (shell command e fs).2 !! tor_list_file = fs !! tor_list_file) ->
  triple (fun _ => True) (install_tor_and_proxychains shell)
         (fun _ fs => fs !! tor_list_file = Some (repo_line +:+ nl))
         (fun _ => True).
Proof.
  intros Hsh. unfold install_tor_and_proxychains. cbv zeta. walk.
  eapply triple_bind;
    [apply (triple_run_cmd _ _ _ (fun _ => True)); auto|intros ?; cbv beta].
  eapply triple_bind;
    [apply (triple_run_cmd _ _ _ (fun _ => True)); auto|intros ?; cbv beta].
  walk.
  eapply triple_bind; [apply triple_open_w|intros ?; cbv beta].
  eapply triple_bind; [apply triple_close_w|intros ?; cbv beta].
  walk.
  eapply triple_bind;
    [apply (triple_run_cmd _ _ _ (fun fs => fs !! tor_list_file = Some (repo_line +:+ nl)));
     [intros e fs Hfs; rewrite Hsh by (left; reflexivity); exact Hfs|auto]
    |intros ?; cbv beta].
  eapply triple_bind;
    [apply (triple_run_cmd _ _ _ (fun fs => fs !! tor_list_file = Some (repo_line +:+ nl)));
     [intros e fs Hfs; rewrite Hsh by (right; left; reflexivity); exact Hfs|auto]
    |intros ?; cbv beta].
  still.
Qed.

(** *** A run on a healthy machine *)

Section Healthy.
Hypothesis Hok : forall command e fs,
  command <> PURGE_CMD -> (shell command e fs).1.1 = 0%Z.
Hypothesis Hcfg : forall e fs,
  is_Some ((shell INSTALL_CMD e fs).2 !! config_file).

Ltac ok_cmd R :=
  eapply triple_bind;
    [apply (triple_run_cmd_ok _ _ _ R);
     [intros; apply Hok; discriminate|auto]
    |intros ?; cbv beta].

Lemma triple_cleanup_ok :
  triple anything (cleanup_existing_install shell) (fun _ => anything) never.
Proof.
  unfold cleanup_existing_install. cbv zeta. walk.
  eapply triple_bind;
    [apply (triple_run_cmd_unchecked _ _ _ anything); unfold anything; auto
    |intros ?; cbv beta].
  apply triple_remove_if_present. intros ?.
  apply triple_remove_if_present. intros ?.
  apply (triple_weaken anything _ _ (fun _ => anything) _ never);
    [|unfold anything; auto..].
  ok_cmd anything. ok_cmd anything. still.
Qed.

Lemma triple_install_ok :
  triple anything (install_tor_and_proxychains shell)
         (fun _ fs => is_Some (fs !! config_file)) never.
Proof.
  unfold install_tor_and_proxychains. cbv zeta. walk.
  ok_cmd anything. ok_cmd anything. walk.
  eapply triple_bind; [apply triple_open_w|intros ?; cbv beta].
  eapply triple_bind; [apply triple_close_w_any|intros ?; cbv beta].
  walk. ok_cmd anything.
  eapply triple_bind;
    [apply (triple_run_cmd_ok _ _ _ (fun fs => is_Some (fs !! config_file)));
     [intros; apply Hok; discriminate|intros; apply Hcfg]
    |intros ?; cbv beta].
  still.
Qed.

Lemma triple_configure_ok :
  triple (Env:=Env) (fun fs => is_Some (fs !! config_file))
         configure_proxychains (fun _ => anything) never.
Proof.
  intros w [c Hc].
  destruct (configure_proxychains_config w c Hc) as (-> & _). exact I.
Qed.

Lemma triple_start_ok :
  triple anything (start_tor_and_provide_instructions shell)
         (fun _ => anything) never.
Proof.
  unfold start_tor_and_provide_instructions. walk.
  ok_cmd anything. walk. still.
Qed.

Lemma healthy_run_returns w :
  euid w = 0%Z -> (main shell w).1 = Returned tt.
Proof.
  intros Hroot.
  destruct main_as_root_steps as (banner & closing & Hclosing & Hmain).
  rewrite (Hmain w Hroot).
  assert (T : triple anything
            (bind (cleanup_existing_install shell) (fun _ =>
               bind (install_tor_and_proxychains shell) (fun _ =>
                 bind configure_proxychains (fun _ =>
                   bind (start_tor_and_provide_instructions shell) (fun _ =>
                     closing)))))
            (fun _ => anything) never).
  { eapply triple_bind; [apply triple_cleanup_ok|intros ?; cbv beta].
    eapply triple_bind; [apply triple_install_ok|intros ?; cbv beta].
    eapply triple_bind; [apply triple_configure_ok|intros ?; cbv beta].
    eapply triple_bind; [apply triple_start_ok|intros ?; cbv beta].
    apply triple_closing, Hclosing. }
  specialize (T (printed banner w) I).
  destruct (bind _ _ (printed banner w)) as [[[]|code|exn] w']; cbn in T;
    [reflexivity|destruct T..].
Qed.

End Healthy.

(** *** The files after a run *)

Lemma triple_configure_rewritten :
  triple (Env:=Env) (fun _ => True) configure_proxychains
         (fun _ => rewritten) (fun _ => True).
Proof.
  intros w _. pose proof (triple_configure (fun _ => True) w I) as H.
  destruct ((configure_proxychains w).1); [exact H|exact I|exact H].
Qed.

Lemma triple_start_keeps :
  (forall e fs, rewritten fs -> rewritten (shell START_CMD e fs).2) ->
  triple rewritten (start_tor_and_provide_instructions shell)
         (fun _ => rewritten) (fun _ => True).
Proof.
  intros Hkeep. unfold start_tor_and_provide_instructions. walk.
  eapply triple_bind;
    [apply (triple_run_cmd _ _ _ rewritten); [exact Hkeep|auto]
    |intros ?; cbv beta].
  walk. still.
Qed.

Lemma returned_run_rewritten w :
  (forall e fs, rewritten fs -> rewritten (shell START_CMD e fs).2) ->
  (main shell w).1 = Returned tt -> rewritten (files (main shell w).2).
Proof.
  intros Hkeep Hret.
  destruct (Z.eq_dec (euid w) 0%Z) as [Hroot|Hne];
    [|destruct (main_not_root shell w Hne) as [msgs E];
      rewrite E in Hret; discriminate Hret].
  destruct main_as_root_steps as (banner & closing & Hclosing & Hmain).
  rewrite (Hmain w Hroot) in *.
  assert (T : triple (fun _ => True)
            (bind (cleanup_existing_install shell) (fun _ =>
               bind (install_tor_and_proxychains shell) (fun _ =>
                 bind configure_proxychains (fun _ =>
                   bind (start_tor_and_provide_instructions shell) (fun _ =>
                     closing)))))
            (fun _ => rewritten) (fun _ => True)).
  { eapply triple_bind;
      [apply triple_of_disciplined, disciplined_cleanup|intros ?; cbv beta].
    eapply triple_bind;
      [apply triple_of_disciplined, disciplined_install|intros ?; cbv beta].
    eapply triple_bind; [apply triple_configure_rewritten|intros ?; cbv beta].
    eapply triple_bind; [apply triple_start_keeps, Hkeep|intros ?; cbv beta].
    apply triple_closing, Hclosing. }
  specialize (T (printed banner w) I).
  destruct (bind _ _ (printed banner w)) as [r w']. cbn [fst snd] in *.
  subst r. exact T.
Qed.

End Steps.

(** ** The steps, property by property *)

(** [run_cmd] with the must-succeed flag returns only the code 0, and
    without the flag it always returns, whatever the code.  Either way
    the command is announced first and run exactly once. *)
Theorem run_cmd_contract {Env}
    (shell : string -> Env -> gmap string string -> Z * Env * gmap string string)
    (command : string) (w : World Env) :
  (forall rc, (run_cmd shell command true w).1 = Returned rc -> rc = 0%Z) /\
  (exists rc, (run_cmd shell command false w).1 = Returned rc) /\
  (forall check, exists rc more,
     rc = (shell command (env w) (files w)).1.1 /\
     procs (run_cmd shell command check w).2 = procs w ++ [(command, rc)] /\
     files (run_cmd shell command check w).2 = (shell command (env w) (files w)).2 /\
     stdout (run_cmd shell command check w).2 =
       stdout w ++ (nl +:+ "-> Running: " +:+ command) :: more /\
     (more = [] \/
      more = ["[ERROR] Command failed with exit code " +:+ str_int rc
              +:+ ": " +:+ command])).
Proof.
  assert (U : forall check,
            run_cmd shell command check w =
            let '(rc, e, fs) := shell command (env w) (files w) in
            let w' := mkWorld e fs (stdout w ++ [nl +:+ "-> Running: " +:+ command])
                              (procs w ++ [(command, rc)]) (euid w) in
            if check && negb (rc =? 0)%Z then
              (Exited 1,
               printed ["[ERROR] Command failed with exit code " +:+ str_int rc
                        +:+ ": " +:+ command] w')
            else (Returned rc, w'))
    by (intros; apply run_cmd_unfold).
  destruct (shell command (env w) (files w)) as [[rc e] fs].
  cbn [fst snd]. split; [|split].
  - intros rc'. rewrite U. cbn [andb].
    destruct (rc =? 0)%Z eqn:E; cbn [negb fst].
    + intros [= <-]. apply Z.eqb_eq, E.
    + discriminate.
  - exists rc. rewrite U. reflexivity.
  - intros check. exists rc. rewrite U. destruct (check && negb (rc =? 0)%Z).
    + eexists. unfold printed. cbn [env files stdout procs euid fst snd].
      split; [reflexivity|]. split; [reflexivity|]. split; [reflexivity|].
      split; [rewrite <- app_assoc; reflexivity|]. right. reflexivity.
    + exists []. cbn [env files stdout procs euid fst snd].
      repeat split. left. reflexivity.
Qed.

(** When step 1 returns or exits through [sys.exit], no file of an
    earlier installation is left, provided the two package commands that
    follow the deletion do not bring the files back. *)
Theorem cleanup_removes_old_files {Env}
    (shell : string -> Env -> gmap string string -> Z * Env * gmap string string)
    (w : World Env) :
  (forall command e fs,
     In command ["apt autoremove -y"; "apt update"] ->
     old_files_gone fs -> old_files_gone (shell command e fs).2) ->
  (cleanup_existing_install shell w).1 = Returned tt \/
  (cleanup_existing_install shell w).1 = Exited 1 ->
  files (cleanup_existing_install shell w).2 !! tor_list_file = None /\
  files (cleanup_existing_install shell w).2 !! gpg_key_file = None.
Proof.
  intros Hsh Hres. pose proof (triple_cleanup_gone shell Hsh w I) as T.
  destruct Hres as [Hr|Hr]; rewrite Hr in T; exact T.
Qed.

Lemma cleanup_removes_old_files_witness :
  let w : World unit :=
    mkWorld tt {[ tor_list_file := "deb old"; gpg_key_file := "key";
                  config_file := "[ProxyList]" ]} [] [] 0 in
  (forall command e fs,
     In command ["apt autoremove -y"; "apt update"] ->
     old_files_gone fs -> old_files_gone (offline_shell command e fs).2) /\
  ((cleanup_existing_install offline_shell w).1 = Returned tt \/
   (cleanup_existing_install offline_shell w).1 = Exited 1) /\
  files (cleanup_existing_install offline_shell w).2 !! tor_list_file = None /\
  files (cleanup_existing_install offline_shell w).2 !! gpg_key_file = None.
Proof.
  intros w.
  assert (Hsh : forall command e fs,
     In command ["apt autoremove -y"; "apt update"] ->
     old_files_gone fs -> old_files_gone (offline_shell command e fs).2).
  { intros command e fs _ H. unfold offline_shell.
    destruct (String.eqb command "apt update"); exact H. }
  assert (Hres : (cleanup_existing_install offline_shell w).1 = Returned tt \/
                 (cleanup_existing_install offline_shell w).1 = Exited 1)
    by (right; vm_compute; reflexivity).
  split; [exact Hsh|]. split; [exact Hres|].
  exact (cleanup_removes_old_files offline_shell w Hsh Hres).
Defined.

(** When step 2 returns, the repository list holds exactly the Tor
    repository line, whatever it held before, provided the two package
    commands that follow the write leave that file alone. *)
Theorem install_writes_repository {Env}
    (shell : string -> Env -> gmap string string -> Z * Env * gmap string string)
    (w : World Env) :
  (forall command e fs,
     In command ["apt update"; INSTALL_CMD] ->
     (shell command e fs).2 !! tor_list_file = fs !! tor_list_file) ->
  (install_tor_and_proxychains shell w).1 = Returned tt ->
  files (install_tor_and_proxychains shell w).2 !! tor_list_file
    = Some (repo_line +:+ nl).
Proof.
  intros Hsh Hret. pose proof (triple_install_repo shell Hsh w I) as T.
  rewrite Hret in T. exact T.
Qed.

Lemma install_writes_repository_witness :
  let w : World unit := mkWorld tt {[ tor_list_file := "deb old" ]} [] [] 0 in
  (forall command e fs,
     In command ["apt update"; INSTALL_CMD] ->
     (stock_shell command e fs).2 !! tor_list_file = fs !! tor_list_file) /\
  (install_tor_and_proxychains stock_shell w).1 = Returned tt /\
  files (install_tor_and_proxychains stock_shell w).2 !! tor_list_file
    = Some (repo_line +:+ nl).
Proof.
  intros w.
  assert (Hsh : forall command e fs,
     In command ["apt update"; INSTALL_CMD] ->
     (stock_shell command e fs).2 !! tor_list_file = fs !! tor_list_file).
  { intros command e fs _. unfold stock_shell.
    destruct (String.eqb command "apt install -y tor proxychains4");
      [apply lookup_insert_ne; discriminate|reflexivity]. }
  assert (Hret : (install_tor_and_proxychains stock_shell w).1 = Returned tt)
    by (vm_compute; reflexivity).
  split; [exact Hsh|]. split; [exact Hret|].
  exact (install_writes_repository stock_shell w Hsh Hret).
Defined.

(** Step 3 runs no command and changes two files at most: the backup,
    which receives the old content as it was, and the configuration
    file.  Every other file, the environment and the user stay the same. *)
Theorem configure_touches_two_files {Env} (w : World Env) :
  env (configure_proxychains w).2 = env w /\
  procs (configure_proxychains w).2 = procs w /\
  euid (configure_proxychains w).2 = euid w /\
  (forall path, path <> config_file -> path <> backup_file ->
     files (configure_proxychains w).2 !! path = files w !! path) /\
  (forall c, files w !! config_file = Some c ->
     files (configure_proxychains w).2 !! backup_file = Some c).
Proof.
  destruct (files w !! config_file) as [c|] eqn:Ec.
  - destruct (configure_proxychains_present w c Ec) as [out ->].
    cbn [snd env procs euid files]. repeat split.
    + intros path Hc Hb. rewrite !lookup_insert_ne by congruence. reflexivity.
    + intros c' [= <-].
      rewrite (lookup_insert_ne _ _ _ _ (not_eq_sym backup_file_neq)).
      apply lookup_insert_eq.
  - rewrite (configure_proxychains_missing w Ec).
    cbn [snd env procs euid files printed]. repeat split. discriminate.
Qed.

Lemma configure_touches_two_files_witness :
  let w : World unit :=
    mkWorld tt {[ config_file := "socks4 10.0.0.1 1080" +:+ String CR nl;
                  "/etc/hosts" := "127.0.0.1 localhost" ]} [] [] 0 in
  files (configure_proxychains w).2 !! "/etc/hosts" = files w !! "/etc/hosts" /\
  files (configure_proxychains w).2 !! backup_file
    = Some ("socks4 10.0.0.1 1080" +:+ String CR nl).
Proof.
  intros w.
  destruct (configure_touches_two_files w) as (_ & _ & _ & Hframe & Hbak).
  split; [apply Hframe; discriminate|apply Hbak; reflexivity].
Defined.

(** On a machine where every command except possibly the purge succeeds
    and the installation brings a configuration file, the script run as
    root takes none of its [sys.exit] paths. *)
Theorem healthy_machine_full_run {Env}
    (shell : string -> Env -> gmap string string -> Z * Env * gmap string string)
    (w : World Env) :
  euid w = 0%Z ->
  (forall command e fs, command <> PURGE_CMD -> (shell command e fs).1.1 = 0%Z) ->
  (forall e fs, is_Some ((shell INSTALL_CMD e fs).2 !! config_file)) ->
  forall code, (main shell w).1 <> Exited code.
Proof.
  intros Hroot Hok Hcfg code.
  rewrite (healthy_run_returns shell Hok Hcfg w Hroot). discriminate.
Qed.

Lemma healthy_machine_full_run_witness :
  let root : World unit := mkWorld tt ∅ [] [] 0 in
  euid root = 0%Z /\
  (nothing_to_purge_shell PURGE_CMD tt ∅).1.1 = 100%Z /\
  (forall command e fs,
     command <> PURGE_CMD -> (nothing_to_purge_shell command e fs).1.1 = 0%Z) /\
  (forall e fs,
     is_Some ((nothing_to_purge_shell INSTALL_CMD e fs).2 !! config_file)) /\
  forall code, (main nothing_to_purge_shell root).1 <> Exited code.
Proof.
  intros root.
  assert (Hok : forall command e fs,
     command <> PURGE_CMD -> (nothing_to_purge_shell command e fs).1.1 = 0%Z).
  { intros command e fs Hne. unfold nothing_to_purge_shell, stock_shell.
    destruct (String.eqb_spec command PURGE_CMD) as [Heq|_]; [contradiction|].
    destruct (String.eqb command "apt install -y tor proxychains4"); reflexivity. }
  assert (Hcfg : forall e fs,
     is_Some ((nothing_to_purge_shell INSTALL_CMD e fs).2 !! config_file)).
  { intros e fs. eexists. apply lookup_insert_eq. }
  split; [reflexivity|]. split; [reflexivity|].
  split; [exact Hok|]. split; [exact Hcfg|].
  exact (healthy_machine_full_run nothing_to_purge_shell root eq_refl Hok Hcfg).
Defined.

(** When the script returns, the configuration file is the rewrite of
    what the backup holds, provided starting the service touches neither
    of the two files. *)
Theorem returned_run_leaves_rewrite {Env}
    (shell : string -> Env -> gmap string string -> Z * Env * gmap string string)
    (w : World Env) :
  (forall e fs,
     (shell START_CMD e fs).2 !! config_file = fs !! config_file /\
     (shell START_CMD e fs).2 !! backup_file = fs !! backup_file) ->
  (main shell w).1 = Returned tt ->
  exists c,
    files (main shell w).2 !! backup_file = Some c /\
    files (main shell w).2 !! config_file = Some (rewrite_config c).
Proof.
  intros Hkeep Hret. apply (returned_run_rewritten shell w); [|exact Hret].
  intros e fs (c & Hb & Hc). exists c.
  destruct (Hkeep e fs) as [Kc Kb]. rewrite Kc, Kb. split; assumption.
Qed.

Lemma returned_run_leaves_rewrite_witness :
  let root : World unit := mkWorld tt ∅ [] [] 0 in
  (forall e fs,
     (stock_shell START_CMD e fs).2 !! config_file = fs !! config_file /\
     (stock_shell START_CMD e fs).2 !! backup_file = fs !! backup_file) /\
  (main stock_shell root).1 = Returned tt /\
  exists c,
    files (main stock_shell root).2 !! backup_file = Some c /\
    files (main stock_shell root).2 !! config_file = Some (rewrite_config c).
Proof.
  intros root.
  assert (Hkeep : forall e fs,
     (stock_shell START_CMD e fs).2 !! config_file = fs !! config_file /\
     (stock_shell START_CMD e fs).2 !! backup_file = fs !! backup_file)
    by (intros e fs; split; reflexivity).
  assert (Hret : (main stock_shell root).1 = Returned tt)
    by (vm_compute; reflexivity).
  split; [exact Hkeep|]. split; [exact Hret|].
  exact (returned_run_leaves_rewrite stock_shell root Hkeep Hret).
Defined.

Lemma run_cmd_contract_witness :
  let root : World unit := mkWorld tt ∅ [] [] 0 in
  (run_cmd offline_shell "apt autoremove -y" true root).1 = Returned 0%Z /\
  (exists rc, (run_cmd offline_shell "apt update" false root).1 = Returned rc) /\
  (run_cmd offline_shell "apt update" true root).1 = Exited 1.
Proof.
  intros root.
  destruct (run_cmd_contract offline_shell "apt update" root) as (_ & H & _).
  split; [reflexivity|]. split; [exact H|reflexivity].
Defined.

(** When the key cannot be fetched, step 2 stops at once with status 1:
    no further command is run and the script writes no file, so the
    files are those the key command left. *)
Theorem key_failure_stops_install {Env}
    (shell : string -> Env -> gmap string string -> Z * Env * gmap string string)
    (w : World Env) :
  (shell KEY_CMD (env w) (files w)).1.1 <> 0%Z ->
  (install_tor_and_proxychains shell w).1 = Exited 1 /\
  files (install_tor_and_proxychains shell w).2
    = (shell KEY_CMD (env w) (files w)).2 /\
  procs (install_tor_and_proxychains shell w).2
    = procs w ++ [(KEY_CMD, (shell KEY_CMD (env w) (files w)).1.1)].
Proof.
  intros Hrc. unfold install_tor_and_proxychains. cbv zeta.
  rewrite !bind_print, printed_printed.
  change ("wget -qO- https://deb.torproject.org/torproject.org/A3C4F0F979CAA22CDBA8F512EE8CBC9E886DDD89.asc | "
          +:+ "gpg --dearmor | tee /usr/share/keyrings/tor-archive-keyring.gpg >/dev/null")
    with KEY_CMD.
  destruct (shell KEY_CMD (env w) (files w)) as [[rc e] fs] eqn:Es.
  cbn [fst snd] in *. apply Z.eqb_neq in Hrc.
  match goal with
  | |- context [bind (run_cmd shell KEY_CMD true) ?k ?w0] =>
      assert (R : exists out,
                run_cmd shell KEY_CMD true w0 =
                (Exited 1,
                 mkWorld e fs (stdout w ++ out) (procs w ++ [(KEY_CMD, rc)]) (euid w)))
  end.
  { rewrite run_cmd_unfold. cbn [env files printed]. rewrite Es.
    cbn [andb]. rewrite Hrc. cbn [negb]. unfold printed.
    cbn [env files stdout procs euid]. rewrite <- !app_assoc.
    eexists. reflexivity. }
  destruct R as [out R]. rewrite (bind_exited _ _ _ _ _ R).
  repeat split.
Qed.

Lemma key_failure_stops_install_witness :
  let no_network := fun (command : string) (e : unit) (fs : gmap string string) =>
                      if String.eqb command KEY_CMD then (4%Z, e, fs)
                      else (0%Z, e, fs) in
  let w : World unit := mkWorld tt {[ tor_list_file := "deb old" ]} [] [] 0 in
  (no_network KEY_CMD (env w) (files w)).1.1 <> 0%Z /\
  (install_tor_and_proxychains no_network w).1 = Exited 1 /\
  files (install_tor_and_proxychains no_network w).2 !! tor_list_file
    = Some "deb old".
Proof.
  intros no_network w.
  assert (H : (no_network KEY_CMD (env w) (files w)).1.1 <> 0%Z) by discriminate.
  destruct (key_failure_stops_install no_network w H) as (Hx & Hf & _).
  split; [exact H|]. split; [exact Hx|]. rewrite Hf. reflexivity.
Defined.

(** ** Running step 3 again and again *)

Lemma output_lines_full content :
  Forall (fun l => full_line l = true) (readlines content) ->
  Forall (fun l => full_line l = true) (output_lines content).
Proof.
  intros Hfull. rewrite (output_lines_terminated _ Hfull).
  apply Forall_app. split; [apply Forall_written_for_full, Hfull|].
  destruct (existsb is_header (readlines content)); repeat constructor.
Qed.

Lemma iter_rewrite_full content n :
  Forall (fun l => full_line l = true) (readlines content) ->
  Forall (fun l => full_line l = true)
         (readlines (Nat.iter n rewrite_config content)).
Proof.
  intros Hfull. induction n as [|n IH]; [exact Hfull|].
  apply (output_lines_full _ IH).
Qed.

Lemma iter_configure_files {Env} (w : World Env) c n :
  files w !! config_file = Some c ->
  files (Nat.iter n (fun w => (configure_proxychains w).2) w) !! config_file
    = Some (Nat.iter n rewrite_config c).
Proof.
  intros H. induction n as [|n IH]; [exact H|].
  apply (configure_proxychains_config _ _ IH).
Qed.

(** However often step 3 is run on a file whose lines all end with LF,
    the file then has the Tor directive as its one active proxy entry,
    and the backup holds the file as it was before the last run. *)
Theorem reruns_keep_one_active_directive {Env} (w : World Env) c n :
  files w !! config_file = Some c ->
  Forall (fun l => full_line l = true) (readlines c) ->
  let w' := Nat.iter (S n) (fun w => (configure_proxychains w).2) w in
  files w' !! backup_file = Some (Nat.iter n rewrite_config c) /\
  files w' !! config_file = Some (Nat.iter (S n) rewrite_config c) /\
  List.filter is_directive (readlines (Nat.iter (S n) rewrite_config c))
    = [TOR_LINE].
Proof.
  intros H Hfull w'. subst w'. split; [|split].
  - change (Nat.iter (S n) ?f w) with (f (Nat.iter n f w)).
    apply (configure_proxychains_config _ _ (iter_configure_files w c n H)).
  - apply iter_configure_files, H.
  - change (readlines (Nat.iter (S n) rewrite_config c))
      with (output_lines (Nat.iter n rewrite_config c)).
    rewrite (output_lines_terminated _ (iter_rewrite_full c n Hfull)),
      filter_is_directive_app, no_directive_written.
    destruct (existsb is_header _); reflexivity.
Qed.

Lemma reruns_keep_one_active_directive_witness :
  let c := "[ProxyList]" +:+ nl +:+ "socks4 127.0.0.1 9050" +:+ nl in
  let w := one_file_world c in
  let w' := Nat.iter 3 (fun w => (configure_proxychains w).2) w in
  files w !! config_file = Some c /\
  Forall (fun l => full_line l = true) (readlines c) /\
  files w' !! backup_file = Some (Nat.iter 2 rewrite_config c) /\
  files w' !! config_file = Some (Nat.iter 3 rewrite_config c) /\
  List.filter is_directive (readlines (Nat.iter 3 rewrite_config c))
    = [TOR_LINE].
Proof.
  intros c w w'.
  assert (Hc : files w !! config_file = Some c) by reflexivity.
  assert (Hfull : Forall (fun l => full_line l = true) (readlines c))
    by (repeat constructor).
  split; [exact Hc|]. split; [exact Hfull|].
  exact (reruns_keep_one_active_directive w c 2 Hc Hfull).
Defined.
